(** * PMail IMAP core: SEARCH criteria evaluation and FETCH response synthesis

    A shallow embedding of
      - [server/services/list/imap_search.go]  (package [list]),
      - the SEARCH handler  (package [imap_server], [Search]),
      - the FETCH handler   (package [imap_server], [Fetch], [write] and the
        body-structure constructors),
    followed by the properties of the specification that were checked
    against it.

    Conventions.  Go [int], [int8], [int64] values are [Z]; a conversion to
    [uint32] is written out as a reduction modulo 2^32.  Go strings and byte
    slices are [string] (a sequence of bytes).  A Go slice is a [list]; a nil
    slice and an empty slice are both [[]] (the code only ever asks for
    [len]).  A [map[int]bool] is a [gmap Z bool] read with default [false].
    A pointer that may be nil is an [option]. *)

From Stdlib Require Import ZArith List String Ascii Bool Lia.
From Stdlib Require Import DecimalString.
From stdpp Require Import base gmap list strings.

Import ListNotations.
Local Open Scope string_scope.
Local Open Scope list_scope.
Local Open Scope Z_scope.

(* ===================================================================== *)
(** ** Go runtime and standard-library pieces the code relies on          *)
(* ===================================================================== *)

(** The Go [error] interface: [nil] is [None]. *)
Definition error := option string.
Definition nil_error : error := None.

(** [uint32(x)] for an integer [x]. *)
Definition uint32 (x : Z) : Z := x mod 2 ^ 32.

(** [len(s) == 0] and [len(s) > 0] on slices. *)
Definition len_is_zero {A} (l : list A) : bool :=
  match l with [] => true | _ :: _ => false end.
Definition len_positive {A} (l : list A) : bool := negb (len_is_zero l).

(** The idiom
<<
    var result []T
    for _, item := range list { if keep(item) { result = append(result, item) } }
>>
    written as the loop it is: the accumulator starts empty and grows at its
    end. *)
Definition rangeAppend {A} (keep : A -> bool) (l : list A) : list A :=
  fold_left (fun result item => if keep item then result ++ [item] else result) l [].

Module strings_go.

(** [strings.ToLower] on strings made of ASCII bytes only, where Go maps
    the letters A-Z to a-z and leaves every other byte alone.  On a string
    with a byte above 127 Go decodes UTF-8 and lowers every Unicode letter;
    that part is not modelled, and the statements below that depend on
    what [ToLower] returns are made for ASCII strings. *)
Definition lowerByte (c : ascii) : ascii :=
  let n := nat_of_ascii c in
  if (Nat.leb 65 n && Nat.leb n 90)%bool then ascii_of_nat (n + 32) else c.

Fixpoint ToLower (s : string) : string :=
  match s with
  | EmptyString => EmptyString
  | String c rest => String (lowerByte c) (ToLower rest)
  end.

(** [strings.Contains(s, substr)]. *)
Fixpoint Contains (s substr : string) : bool :=
  if String.prefix substr s then true
  else match s with
       | EmptyString => false
       | String _ rest => Contains rest substr
       end.

(** [strings.IndexByte(s, c)]: the index of the first [c], or [-1]. *)
Fixpoint IndexByte (s : string) (c : ascii) : Z :=
  match s with
  | EmptyString => -1
  | String d rest =>
      if Ascii.eqb d c then 0
      else let i := IndexByte rest c in if i <? 0 then -1 else i + 1
  end.

(** [s[:i]] and [s[i:]] for [0 <= i <= len(s)]. *)
Definition slice_to (s : string) (i : Z) : string := String.substring 0 (Z.to_nat i) s.
Definition slice_from (s : string) (i : Z) : string :=
  String.substring (Z.to_nat i) (String.length s - Z.to_nat i) s.

(** The first occurrence of [sep] in [s]: what precedes it and what
    follows it. *)
Fixpoint cut (sep s : string) : option (string * string) :=
  if String.prefix sep s
  then Some (EmptyString, slice_from s (Z.of_nat (String.length sep)))
  else match s with
       | EmptyString => None
       | String c rest =>
           match cut sep rest with
           | Some (before, after) => Some (String c before, after)
           | None => None
           end
       end.

(** [strings.SplitN(s, sep, n)] for a non-empty [sep] and [n > 0]: at
    most [n] pieces, the last one the unsplit remainder. *)
Fixpoint SplitN (s sep : string) (n : nat) : list string :=
  match n with
  | O => []
  | S O => [s]
  | S n' =>
      match cut sep s with
      | Some (before, after) => before :: SplitN after sep n'
      | None => [s]
      end
  end.

(** [bytes.Count(s, "\n")]. *)
Fixpoint CountByte (s : string) (c : ascii) : Z :=
  match s with
  | EmptyString => 0
  | String d rest => (if Ascii.eqb d c then 1 else 0) + CountByte rest c
  end.

End strings_go.

Module time.

(** A [time.Time]: an instant, held as seconds and nanoseconds counted
    from January 1 of year 1, 00:00:00 UTC (Go's own zero), together with
    the location it is displayed in, here a fixed offset east of UTC in
    seconds. *)
Record Time := mkTime { sec : Z; nsec : Z; offset : Z }.

Definition zero : Time := mkTime 0 0 0.

(** [t.IsZero()]: the instant is the zero instant, whatever the location. *)
Definition IsZero (t : Time) : bool := (sec t =? 0) && (nsec t =? 0).

(** [t.Before(u)]: comparison of instants. *)
Definition Before (t u : Time) : bool :=
  (sec t <? sec u) || ((sec t =? sec u) && (nsec t <? nsec u)).

(** The civil day on which [t] falls in its own location, as a day
    count; year, month and day of [t] are a function of it. *)
Definition civilDay (t : Time) : Z := (sec t + offset t) / 86400.

(** The civil day on which the instant of [t] falls in a location of
    offset [off]. *)
Definition civilDayIn (off : Z) (t : Time) : Z := (sec t + off) / 86400.

(** [time.Date(y, m, d, 0, 0, 0, 0, loc)] for the civil day [day]:
    midnight of that day in the location. *)
Definition DateMidnight (day : Z) (off : Z) : Time :=
  mkTime (day * 86400 - off) 0 off.

End time.

(* ===================================================================== *)
(** ** Data model                                                         *)
(* ===================================================================== *)

Module imap.

(** [imap.Flag] is a string type; these are the library's constants. *)
Definition Flag := string.
Definition FlagSeen : Flag := "\Seen".
Definition FlagAnswered : Flag := "\Answered".
Definition FlagFlagged : Flag := "\Flagged".
Definition FlagDeleted : Flag := "\Deleted".
Definition FlagDraft : Flag := "\Draft".
Definition FlagJunk : Flag := "$Junk".

(** [imap.SeqRange] / [imap.UIDRange] and the sets made of them. *)
Record NumRange := mkRange { Start : Z; Stop : Z }.
Definition SeqSet := list NumRange.
Definition UIDSet := list NumRange.

Record SearchCriteriaHeaderField := mkHeaderField { Key : string; Value : string }.

(** [imap.SearchCriteria], with the fields the evaluator reads.  The
    type is nested through [list] and pairs; its induction principle is
    stated further down. *)
#[local] Unset Elimination Schemes.
Inductive SearchCriteria : Type :=
  mkCriteria {
    UID : list UIDSet;
    SeqNum : list SeqSet;
    Since : time.Time;
    Before : time.Time;
    SentSince : time.Time;
    SentBefore : time.Time;
    Header : list SearchCriteriaHeaderField;
    Body : list string;
    Text : list string;
    Flag_ : list Flag;
    NotFlag : list Flag;
    Larger : Z;
    Smaller : Z;
    Not : list SearchCriteria;
    Or : list (SearchCriteria * SearchCriteria)
  }.
#[local] Set Elimination Schemes.

(** The zero value of the struct. *)
Definition zeroCriteria : SearchCriteria :=
  mkCriteria [] [] time.zero time.zero time.zero time.zero [] [] [] [] [] 0 0 [] [].

End imap.

(** [response.UserEmailUIDData]: one row of the mailbox index. *)
Record UserEmailUIDData := mkUE {
  ID : Z;            (* user_email.id, the UID *)
  SerialNumber : Z;  (* the sequence number *)
  EmailID : Z;       (* email.id *)
  IsRead : Z;
  Status : Z
}.

Module models.

(** [sql.NullString]. *)
Record NullString := mkNullString { NString : string; Valid : bool }.

(** [models.Email]: a stored message row. *)
Record Email := mkEmail {
Id : Z;
Subject : string;
FromName : string;
FromAddress : string;
To : string;
Cc : string;
Bcc : string;
ReplyTo : string;
Sender : string;
Text : NullString;
Html : NullString;
Size : Z;
SendDate : time.Time;
CreateTime : time.Time
}.

End models.
Import models.

(** What [db.Instance.Table("email").In("id", ids).Find(&emails)] leaves:
    the rows, or an error. *)
Inductive FindResult :=
| FindOk (emails : list Email)
| FindErr (err : string).

(* ===================================================================== *)
(** ** The criteria evaluator ([imap_search.go])                          *)
(* ===================================================================== *)

Module list_search.

Import imap models.

(** [isEmptyCriteria]. *)
Definition isEmptyCriteria (criteria : SearchCriteria) : bool :=
  len_is_zero (UID criteria) &&
  len_is_zero (SeqNum criteria) &&
  time.IsZero (Since criteria) &&
  time.IsZero (Before criteria) &&
  time.IsZero (SentSince criteria) &&
  time.IsZero (SentBefore criteria) &&
  len_is_zero (Header criteria) &&
  len_is_zero (Body criteria) &&
  len_is_zero (imap.Text criteria) &&
  len_is_zero (Flag_ criteria) &&
  len_is_zero (NotFlag criteria) &&
  (Larger criteria =? 0) &&
  (Smaller criteria =? 0) &&
  len_is_zero (Not criteria) &&
  len_is_zero (Or criteria).

(** [needsEmailData]. *)
Definition needsEmailData (criteria : SearchCriteria) : bool :=
  negb (time.IsZero (Since criteria)) ||
  negb (time.IsZero (Before criteria)) ||
  negb (time.IsZero (SentSince criteria)) ||
  negb (time.IsZero (SentBefore criteria)) ||
  len_positive (Header criteria) ||
  len_positive (Body criteria) ||
  len_positive (imap.Text criteria) ||
  (0 <? Larger criteria) ||
  (0 <? Smaller criteria).

(** [hasFlag]: only four flags are tracked. *)
Definition hasFlag (item : UserEmailUIDData) (flag : Flag) : bool :=
  if String.eqb flag FlagSeen then IsRead item =? 1
  else if String.eqb flag FlagDeleted then Status item =? 3
  else if String.eqb flag FlagDraft then Status item =? 4
  else if String.eqb flag FlagJunk then Status item =? 5
  else if String.eqb flag FlagAnswered || String.eqb flag FlagFlagged then false
  else false.

(** [filterByFlags]: the two inner loops stop at the first offending
    flag; [match] stays true when none offends. *)
Definition filterByFlags (l : list UserEmailUIDData) (flags notFlags : list Flag)
  : list UserEmailUIDData :=
  rangeAppend
    (fun item =>
       let match_ := forallb (fun flag => hasFlag item flag) flags in
       let match_ :=
         if match_ then forallb (fun flag => negb (hasFlag item flag)) notFlags
         else match_ in
       match_)
    l.

(** [truncateToDate]: midnight, in the location of [t], of the day on
    which [t] falls there. *)
Definition truncateToDate (t : time.Time) : time.Time :=
  time.DateMidnight (time.civilDay t) (time.offset t).

(** [matchesHeader]. *)
Definition matchesHeader (email : Email) (key value : string) : bool :=
  let key := strings_go.ToLower key in
  let value := strings_go.ToLower value in
  if String.eqb key "subject" then
    strings_go.Contains (strings_go.ToLower (Subject email)) value
  else if String.eqb key "from" then
    strings_go.Contains (strings_go.ToLower (FromAddress email)) value ||
    strings_go.Contains (strings_go.ToLower (FromName email)) value
  else if String.eqb key "to" then
    strings_go.Contains (strings_go.ToLower (To email)) value
  else if String.eqb key "cc" then
    strings_go.Contains (strings_go.ToLower (Cc email)) value
  else if String.eqb key "bcc" then
    strings_go.Contains (strings_go.ToLower (Bcc email)) value
  else if String.eqb key "reply-to" then
    strings_go.Contains (strings_go.ToLower (ReplyTo email)) value
  else if String.eqb key "sender" then
    strings_go.Contains (strings_go.ToLower (Sender email)) value
  else false.

(** [matchesBody]. *)
Definition matchesBody (email : Email) (pattern : string) : bool :=
  let pattern := strings_go.ToLower pattern in
  if Valid (Text email) &&
     strings_go.Contains (strings_go.ToLower (NString (Text email))) pattern
  then true
  else if Valid (Html email) &&
          strings_go.Contains (strings_go.ToLower (NString (Html email))) pattern
  then true
  else false.

(** [matchesText]. *)
Definition matchesText (email : Email) (pattern : string) : bool :=
  let pattern := strings_go.ToLower pattern in
  if strings_go.Contains (strings_go.ToLower (Subject email)) pattern then true
  else if strings_go.Contains (strings_go.ToLower (FromAddress email)) pattern then true
  else if strings_go.Contains (strings_go.ToLower (FromName email)) pattern then true
  else if strings_go.Contains (strings_go.ToLower (To email)) pattern then true
  else if strings_go.Contains (strings_go.ToLower (Cc email)) pattern then true
  else if strings_go.Contains (strings_go.ToLower (Bcc email)) pattern then true
  else matchesBody email pattern.

(** [matchesEmailCriteria]: every guard returns [false] early. *)
Definition matchesEmailCriteria (email : Email) (criteria : SearchCriteria) : bool :=
  if negb (time.IsZero (Since criteria)) &&
     time.Before (CreateTime email) (truncateToDate (Since criteria)) then false
  else if negb (time.IsZero (Before criteria)) &&
          negb (time.Before (CreateTime email) (truncateToDate (Before criteria))) then false
  else if negb (time.IsZero (SentSince criteria)) &&
          time.Before (SendDate email) (truncateToDate (SentSince criteria)) then false
  else if negb (time.IsZero (SentBefore criteria)) &&
          negb (time.Before (SendDate email) (truncateToDate (SentBefore criteria))) then false
  else if (0 <? Larger criteria) && (Size email <=? Larger criteria) then false
  else if (0 <? Smaller criteria) && (Size email >=? Smaller criteria) then false
  else if negb (forallb (fun hf => matchesHeader email (Key hf) (Value hf)) (Header criteria))
  then false
  else if negb (forallb (fun pattern => matchesBody email pattern) (Body criteria)) then false
  else if negb (forallb (fun pattern => matchesText email pattern) (imap.Text criteria))
  then false
  else true.

(** A [map[int]bool] read at a key: a missing key reads [false]. *)
Definition readBool (m : gmap Z bool) (k : Z) : bool := default false (m !! k).

(** The set of the UIDs of a list, as the loops
    [for _, item := range l { m[item.ID] = true }] build it. *)
Definition uidSetOf (l : list UserEmailUIDData) : gmap Z bool :=
  fold_left (fun m item => <[ID item := true]> m) l ∅.

Section Evaluator.

(** The collaborators of the evaluator.
    - [UIDSet_Contains], [SeqSet_Contains]: the [Contains] methods of
      go-imap's number sets.
    - [mailbox]: what [GetUEListByUID(ctx, groupName, 0, 0, nil)]
      returns.  The evaluator asks for it again at every recursive call;
      the list is taken to be the same at each of them, one snapshot per
      request.
    - [Find]: the [email] table looked up by a list of ids. *)
Variable UIDSet_Contains : UIDSet -> Z -> bool.
Variable SeqSet_Contains : SeqSet -> Z -> bool.
Variable mailbox : list UserEmailUIDData.
Variable Find : list Z -> FindResult.

Definition GetUEListByUID : list UserEmailUIDData := mailbox.

(** [filterByUIDSets]: keep an item as soon as one set contains it. *)
Definition filterByUIDSets (l : list UserEmailUIDData) (uidSets : list UIDSet)
  : list UserEmailUIDData :=
  rangeAppend
    (fun item => existsb (fun uidSet => UIDSet_Contains uidSet (uint32 (ID item))) uidSets)
    l.

(** [filterBySeqNumSets]. *)
Definition filterBySeqNumSets (l : list UserEmailUIDData) (seqSets : list SeqSet)
  : list UserEmailUIDData :=
  rangeAppend
    (fun item =>
       existsb (fun seqSet => SeqSet_Contains seqSet (uint32 (SerialNumber item))) seqSets)
    l.

(** [filterWithEmailData].  ([ueMap] is built by the source and never
    read; it is left out.) *)
Definition filterWithEmailData (l : list UserEmailUIDData) (criteria : SearchCriteria)
  : list UserEmailUIDData :=
  if len_is_zero l then l
  else
    let emailIDs := fold_left (fun ids item => ids ++ [EmailID item]) l [] in
    match Find emailIDs with
    | FindErr _ => l
    | FindOk emails =>
        let emailMap : gmap Z Email :=
          fold_left (fun m e => <[Id e := e]> m) emails ∅ in
        rangeAppend
          (fun item =>
             match emailMap !! EmailID item with
             | None => false
             | Some email => matchesEmailCriteria email criteria
             end)
          l
    end.

(** [applyNotCriteria], with the recursive call to [SearchEmails] passed
    in as [search]. *)
Definition applyNotCriteria (search : SearchCriteria -> list UserEmailUIDData * error)
    (l : list UserEmailUIDData) (notCriteria : SearchCriteria)
  : list UserEmailUIDData :=
  let '(matchedList, _) := search notCriteria in
  let matchedUIDs := uidSetOf matchedList in
  rangeAppend (fun item => negb (readBool matchedUIDs (ID item))) l.

(** The loop [for _, item := range matches { if currentUIDs[item.ID]
    { resultUIDs[item.ID] = true } }]. *)
Definition collectCurrent (currentUIDs : gmap Z bool) (matches : list UserEmailUIDData)
    (resultUIDs : gmap Z bool) : gmap Z bool :=
  fold_left
    (fun r item => if readBool currentUIDs (ID item) then <[ID item := true]> r else r)
    matches resultUIDs.

(** [applyOrCriteria]: one [resultUIDs] map, created before the loop
    over the pairs and filled by every pair. *)
Definition applyOrCriteria (search : SearchCriteria -> list UserEmailUIDData * error)
    (l : list UserEmailUIDData) (orCriteria : list (SearchCriteria * SearchCriteria))
  : list UserEmailUIDData :=
  if len_is_zero orCriteria then l
  else
    let currentUIDs := uidSetOf l in
    let resultUIDs :=
      fold_left
        (fun resultUIDs pair =>
           let '(matches1, _) := search (fst pair) in
           let resultUIDs := collectCurrent currentUIDs matches1 resultUIDs in
           let '(matches2, _) := search (snd pair) in
           collectCurrent currentUIDs matches2 resultUIDs)
        orCriteria ∅ in
    rangeAppend (fun item => readBool resultUIDs (ID item)) l.

(** [SearchEmails] on a non-nil criteria pointer.  ([uidToSeq] and
    [seqToUID] are built by the source and never read; they are left
    out.) *)
Fixpoint SearchEmailsAt (criteria : SearchCriteria) {struct criteria}
  : list UserEmailUIDData * error :=
  let baseList := GetUEListByUID in
  if len_is_zero baseList then (baseList, nil_error)
  else if isEmptyCriteria criteria then (baseList, nil_error)
  else
    let baseList :=
      if len_positive (UID criteria) then filterByUIDSets baseList (UID criteria)
      else baseList in
    let baseList :=
      if len_positive (SeqNum criteria) then filterBySeqNumSets baseList (SeqNum criteria)
      else baseList in
    let baseList :=
      if needsEmailData criteria then filterWithEmailData baseList criteria
      else baseList in
    let baseList :=
      if len_positive (Flag_ criteria) || len_positive (NotFlag criteria)
      then filterByFlags baseList (Flag_ criteria) (NotFlag criteria)
      else baseList in
    let baseList :=
      if len_positive (Not criteria)
      then fold_left
             (fun baseList notCriteria =>
                applyNotCriteria SearchEmailsAt baseList notCriteria)
             (Not criteria) baseList
      else baseList in
    let baseList :=
      if len_positive (Or criteria)
      then applyOrCriteria SearchEmailsAt baseList (Or criteria)
      else baseList in
    (baseList, nil_error).

(** [SearchEmails]: the criteria pointer may be nil. *)
Definition SearchEmails (criteria : option SearchCriteria)
  : list UserEmailUIDData * error :=
  match criteria with
  | None =>
      let baseList := GetUEListByUID in
      if len_is_zero baseList then (baseList, nil_error) else (baseList, nil_error)
  | Some c => SearchEmailsAt c
  end.

End Evaluator.

End list_search.

(* ===================================================================== *)
(** ** The SEARCH and FETCH handlers (package [imap_server])              *)
(* ===================================================================== *)

Module parsemail.

(** [parsemail.User], [parsemail.Attachment] and [parsemail.Email].  The
    slices of user pointers are taken to hold no nil pointer. *)
Record User := mkUser { Name : string; EmailAddress : string }.

Record Attachment := mkAttachment {
  Filename : string;
  ContentType : string;
  Content : string
}.

Record Email := mkParsed {
  Sender : option User;
  ReplyTo : list User;
  To : list User;
  Cc : list User;
  Bcc : list User;
  HTML : string;
  Text : string;
  Attachments : list Attachment
}.

End parsemail.

Module response.

(** [response.EmailResponseData]: the stored row (an embedded
    [models.Email]) with the per-user columns. *)
Record EmailResponseData := mkEmailResponse {
  Email_ : models.Email;
  IsRead : Z;
  SerialNumber : Z;
  UeId : Z
}.

End response.

Module imap_server.

Import imap.

Definition CRLF : string := String (ascii_of_nat 13) (String (ascii_of_nat 10) EmptyString).
Definition LF : ascii := ascii_of_nat 10.

(** The [%d] verb of [fmt]. *)
Definition itoa (z : Z) : string := NilZero.string_of_int (Z.to_int z).

(** [strings.LastIndex(s, "@")]. *)
Fixpoint LastIndexByte (s : string) (c : ascii) : Z :=
  match s with
  | EmptyString => -1
  | String d rest =>
      let i := LastIndexByte rest c in
      if 0 <=? i then i + 1 else if Ascii.eqb d c then 0 else -1
  end.

(** *** go-imap response types *)

Record Address := mkAddress { AName : string; Mailbox : string; Host : string }.

Record Envelope := mkEnvelope {
  EDate : time.Time;
  ESubject : string;
  EFrom : list Address;
  ESender : list Address;
  EReplyTo : list Address;
  ETo : list Address;
  ECc : list Address;
  EBcc : list Address;
  EMessageID : string
}.

Record BodyStructureDisposition := mkDisposition {
  DValue : string;
  DParams : gmap string string
}.

(** [BodyStructureSinglePartExt]: only [Disposition] is ever set. *)
Record BodyStructureSinglePartExt := mkSingleExt {
  Disposition : option BodyStructureDisposition
}.

Record BodyStructureSinglePart := mkSinglePart {
  Type_ : string;
  Subtype : string;
  Params : gmap string string;
  BSID : string;
  Encoding : string;
  BSSize : Z;
  BSText : option Z;                 (* [&BodyStructureText{NumLines}] *)
  Extended : option BodyStructureSinglePartExt
}.

(** [BodyStructureMultiPartExt{}]: always the empty struct here. *)
Inductive BodyStructureMultiPartExt := EmptyMultiPartExt.

(** The [imap.BodyStructure] interface with its two implementations. *)
#[local] Unset Elimination Schemes.
Inductive BodyStructure :=
| SinglePart (p : BodyStructureSinglePart)
| MultiPart (subtype : string) (children : list BodyStructure)
            (extended : option BodyStructureMultiPartExt).
#[local] Set Elimination Schemes.

Inductive PartSpecifier :=
| PartSpecifierNone | PartSpecifierHeader | PartSpecifierMIME | PartSpecifierText.

Definition PartSpecifier_eqb (a b : PartSpecifier) : bool :=
  match a, b with
  | PartSpecifierNone, PartSpecifierNone
  | PartSpecifierHeader, PartSpecifierHeader
  | PartSpecifierMIME, PartSpecifierMIME
  | PartSpecifierText, PartSpecifierText => true
  | _, _ => false
  end.

Record FetchItemBodySection := mkSection {
  Specifier : PartSpecifier;
  Part : list Z;
  HeaderFields : list string;
  HeaderFieldsNot : list string;
  Peek : bool
}.

Record FetchItemBodyStructure := mkFetchBS { BSExtended : bool }.

Record FetchOptions := mkFetchOptions {
  OptUID : bool;
  OptEnvelope : bool;
  OptBodyStructure : option FetchItemBodyStructure;
  OptRFC822Size : bool;
  OptFlags : bool;
  OptInternalDate : bool;
  OptBodySection : list FetchItemBodySection
}.

Inductive NumSet :=
| OfSeqSet (s : SeqSet)
| OfUIDSet (s : UIDSet).

Inductive NumKind := NumKindSeq | NumKindUID.

Record SearchOptions := mkSearchOptions { ReturnMin : bool; ReturnMax : bool }.

Record SearchData := mkSearchData {
  All : list NumRange;
  SDUID : bool;
  Min : Z;
  Max : Z;
  Count : Z
}.

(** [list.ImapListReq]. *)
Record ImapListReq := mkListReq { Star : Z; End_ : Z }.

(** *** Effects

    Everything [write] does to the outside is a call on the fetch writer
    or a call of [detail.MakeRead]; a run is the sequence of those
    calls. *)
Inductive Event :=
| CreateMessage (seqNum : Z)
| WriteUID (uid : Z)
| WriteEnvelope (env : Envelope)
| WriteBodyStructure (bs : BodyStructure)
| WriteRFC822Size (size : Z)
| WriteFlags (flags : list Flag)
| WriteInternalDate (t : time.Time)
| MakeRead (id : Z) (read : bool)
| WriteBodySection (section : FetchItemBodySection) (size : Z)
| BodyWrite (content : string)
| BodyClose
| MessageClose.

(** A computation: its result and the calls it made, in order. *)
Definition IO (A : Type) : Type := (A * list Event)%type.

Definition io_ret {A} (a : A) : IO A := (a, []).
Definition io_bind {A B} (m : IO A) (k : A -> IO B) : IO B :=
  let '(a, calls1) := m in
  let '(b, calls2) := k a in
  (b, calls1 ++ calls2).
Definition call (e : Event) : IO unit := (tt, [e]).
Definition when (b : bool) (m : IO unit) : IO unit := if b then m else io_ret tt.

Notation "m1 >>> m2" := (io_bind m1 (fun _ => m2))
  (at level 62, right associativity).

(** [for _, x := range l { body(x) }]. *)
Fixpoint forRange {A} (l : list A) (body : A -> IO unit) : IO unit :=
  match l with
  | [] => io_ret tt
  | x :: rest => body x >>> forRange rest body
  end.

(** The calls a computation makes. *)
Definition run {A} (m : IO A) : list Event := snd m.

(** *** Envelope and body structure *)

(** The split of an address on its last [@], shared by [userToAddress]
    and [buildEnvelope]. *)
Definition splitAddress (addr : string) : string * string :=
  let at_ := LastIndexByte addr "@"%char in
  if 0 <=? at_
  then (strings_go.slice_to addr at_, strings_go.slice_from addr (at_ + 1))
  else (addr, "").

(** [userToAddress] on a non-nil user. *)
Definition userToAddress (u : parsemail.User) : Address :=
  let '(mailbox, host) := splitAddress (parsemail.EmailAddress u) in
  mkAddress (parsemail.Name u) mailbox host.

(** [usersToAddresses]: users without an address are dropped; an empty
    result is the nil slice. *)
Definition usersToAddresses (users : list parsemail.User) : list Address :=
  if len_is_zero users then []
  else
    fold_left
      (fun addrs u =>
         if negb (String.eqb (parsemail.EmailAddress u) "")
         then addrs ++ [userToAddress u] else addrs)
      users [].

(** [bsTextPlain], [bsTextHTML]. *)
Definition bsTextPlain (size numLines : Z) : BodyStructureSinglePart :=
  mkSinglePart "text" "plain" {[ "charset" := "utf-8" ]} "" "base64" size
               (Some numLines) (Some (mkSingleExt None)).

Definition bsTextHTML (size numLines : Z) : BodyStructureSinglePart :=
  mkSinglePart "text" "html" {[ "charset" := "utf-8" ]} "" "base64" size
               (Some numLines) (Some (mkSingleExt None)).

(** [bsAttachment]. *)
Definition bsAttachment (filename mime : string) (size : Z) (encoding : string)
  : BodyStructureSinglePart :=
  let slash := strings_go.IndexByte mime "/"%char in
  let '(mt, st) :=
    if 0 <? slash
    then (strings_go.slice_to mime slash, strings_go.slice_from mime (slash + 1))
    else ("application", "octet-stream") in
  mkSinglePart mt st {[ "name" := filename ]} "" encoding size None
    (Some (mkSingleExt (Some (mkDisposition "attachment" {[ "filename" := filename ]})))).

(** [bsAlternative]: never without a child. *)
Definition bsAlternative (text html : option BodyStructureSinglePart) : BodyStructure :=
  let children : list BodyStructure := [] in
  let children :=
    match text with Some t => children ++ [SinglePart t] | None => children end in
  let children :=
    match html with Some h => children ++ [SinglePart h] | None => children end in
  let children :=
    if len_is_zero children then children ++ [SinglePart (bsTextPlain 0 0)]
    else children in
  MultiPart "alternative" children (Some EmptyMultiPartExt).

(** [bsMixedWithAttachments]. *)
Definition bsMixedWithAttachments (alt : BodyStructure) (extend : bool)
    (atts : list BodyStructure) : BodyStructure :=
  let children := [alt] in
  let children := children ++ atts in
  let ext := if extend then Some EmptyMultiPartExt else None in
  MultiPart "mixed" children ext.

(** The block of [write] guarded by [options.BodyStructure != nil]: the
    structure handed to [WriteBodyStructure]. *)
Definition buildBodyStructure (traEmail : parsemail.Email) (extended : bool)
  : BodyStructure :=
  let html :=
    if (0 <? Z.of_nat (String.length (parsemail.HTML traEmail)))
    then Some (bsTextHTML (uint32 (Z.of_nat (String.length (parsemail.HTML traEmail))))
                          (strings_go.CountByte (parsemail.HTML traEmail) LF + 1))
    else None in
  let text :=
    if (0 <? Z.of_nat (String.length (parsemail.Text traEmail)))
    then Some (bsTextPlain (uint32 (Z.of_nat (String.length (parsemail.Text traEmail))))
                           (strings_go.CountByte (parsemail.Text traEmail) LF + 1))
    else None in
  let alt := bsAlternative text html in
  let attrs :=
    fold_left
      (fun attrs attachment =>
         attrs ++ [SinglePart
                     (bsAttachment (parsemail.Filename attachment)
                        (parsemail.ContentType attachment)
                        (uint32 (Z.of_nat (String.length (parsemail.Content attachment))))
                        "base64")])
      (parsemail.Attachments traEmail) [] in
  bsMixedWithAttachments alt extended attrs.

(** *** Collaborators

    Code of other packages that the handlers call.  None of it is part of
    the modelled files; each is a function of its arguments. *)
Record Collaborators := mkCollaborators {
  (* config.Instance.Domain *)
  Domain : string;
  (* cast.ToUint32 on an int *)
  ToUint32 : Z -> Z;
  (* t.Format(time.RFC1123Z) *)
  FormatRFC1123Z : time.Time -> string;
  (* mime.QEncoding.Encode("utf-8", s) *)
  QEncode : string -> string;
  (* parsemail.NewEmailFromModel *)
  NewEmailFromModel : models.Email -> parsemail.Email;
  (* traEmail.BuildBytes(ctx, false) *)
  BuildBytes : parsemail.Email -> string;
  (* traEmail.BuildPart(ctx, part); nil is None *)
  BuildPart : parsemail.Email -> list Z -> option string;
  (* traEmail.BuildTo2String(), BuildCc2String(), BuildBcc2String() *)
  BuildTo2String : parsemail.Email -> string;
  BuildCc2String : parsemail.Email -> string;
  BuildBcc2String : parsemail.Email -> string;
  (* list.GetEmailListByGroup(ctx, mailbox, req, uid) *)
  GetEmailListByGroup : ImapListReq -> bool -> list response.EmailResponseData
}.

Section Handlers.

Variable env : Collaborators.

Import response.

(** [buildEnvelope]. *)
Definition buildEnvelope (email : EmailResponseData) (traEmail : parsemail.Email)
  : Envelope :=
  let from :=
    if negb (String.eqb (models.FromAddress (Email_ email)) "")
    then
      let '(mailbox, host) := splitAddress (models.FromAddress (Email_ email)) in
      [mkAddress (models.FromName (Email_ email)) mailbox host]
    else [] in
  let sender :=
    match parsemail.Sender traEmail with
    | Some s =>
        if negb (String.eqb (parsemail.EmailAddress s) "") then [userToAddress s]
        else from
    | None => from
    end in
  let replyTo :=
    if len_positive (parsemail.ReplyTo traEmail)
    then usersToAddresses (parsemail.ReplyTo traEmail)
    else from in
  let messageID :=
    "<" +:+ itoa (models.Id (Email_ email)) +:+ "@" +:+ Domain env +:+ ">" in
  mkEnvelope (models.CreateTime (Email_ email)) (models.Subject (Email_ email))
             from sender replyTo
             (usersToAddresses (parsemail.To traEmail))
             (usersToAddresses (parsemail.Cc traEmail))
             (usersToAddresses (parsemail.Bcc traEmail))
             messageID.

(** The fields re-emitted when the client names none. *)
Definition defaultHeaderFields : list string :=
  ["date"; "subject"; "from"; "to"; "cc"; "message-id"; "content-type"].

(** One turn of the [switch fieldLower] of [write]: what the field adds
    to the buffer. *)
Definition headerField (email : EmailResponseData) (traEmail : parsemail.Email)
    (emailContent : string) (field : string) : string :=
  let fieldLower := strings_go.ToLower field in
  let e := Email_ email in
  if String.eqb fieldLower "date" then
    "Date: " +:+ FormatRFC1123Z env (models.CreateTime e) +:+ CRLF
  else if String.eqb fieldLower "subject" then
    "Subject: " +:+ QEncode env (models.Subject e) +:+ CRLF
  else if String.eqb fieldLower "from" then
    if negb (String.eqb (models.FromName e) "")
    then "From: " +:+ QEncode env (models.FromName e) +:+ " <" +:+ models.FromAddress e
         +:+ ">" +:+ CRLF
    else "From: " +:+ models.FromAddress e +:+ CRLF
  else if String.eqb fieldLower "sender" then
    if negb (String.eqb (models.FromName e) "")
    then "Sender: " +:+ QEncode env (models.FromName e) +:+ " <" +:+ models.FromAddress e
         +:+ ">" +:+ CRLF
    else "Sender: " +:+ models.FromAddress e +:+ CRLF
  else if String.eqb fieldLower "reply-to" then
    match parsemail.ReplyTo traEmail with
    | r0 :: _ =>
        if negb (String.eqb (parsemail.EmailAddress r0) "")
        then
          if negb (String.eqb (parsemail.Name r0) "")
          then "Reply-To: " +:+ QEncode env (parsemail.Name r0) +:+ " <"
               +:+ parsemail.EmailAddress r0 +:+ ">" +:+ CRLF
          else "Reply-To: " +:+ parsemail.EmailAddress r0 +:+ CRLF
        else ""
    | [] => ""
    end
  else if String.eqb fieldLower "to" then
    let toStr := BuildTo2String env traEmail in
    if negb (String.eqb toStr "") then "To: " +:+ toStr +:+ CRLF else ""
  else if String.eqb fieldLower "cc" then
    if len_positive (parsemail.Cc traEmail)
    then "Cc: " +:+ BuildCc2String env traEmail +:+ CRLF else ""
  else if String.eqb fieldLower "bcc" then
    if len_positive (parsemail.Bcc traEmail)
    then "Bcc: " +:+ BuildBcc2String env traEmail +:+ CRLF else ""
  else if String.eqb fieldLower "message-id" then
    "Message-ID: <" +:+ itoa (models.Id e) +:+ "@" +:+ Domain env +:+ ">" +:+ CRLF
  else if String.eqb fieldLower "content-type" then
    match strings_go.SplitN emailContent CRLF 3 with
    | a0 :: a1 :: _ => a0 +:+ a1 +:+ CRLF
    | _ => ""
    end
  else "".

(** The header branch of [write]: the buffer [b] once the loop over the
    fields is over and the closing blank line is written. *)
Definition headerBlock (email : EmailResponseData) (traEmail : parsemail.Email)
    (emailContent : string) (section : FetchItemBodySection) : string :=
  let fields := HeaderFields section in
  let fields := if len_is_zero fields then defaultHeaderFields else fields in
  let b :=
    fold_left
      (fun b field => b +:+ headerField email traEmail emailContent field)
      fields "" in
  b +:+ CRLF.

(** One turn of the loop over [options.BodySection]. *)
Definition writeSection (email : EmailResponseData) (traEmail : parsemail.Email)
    (section : FetchItemBodySection) : IO unit :=
  when (negb (Peek section)) (call (MakeRead (models.Id (Email_ email)) true)) >>>
  let emailContent := BuildBytes env traEmail in
  if len_positive (HeaderFields section)
     || PartSpecifier_eqb (Specifier section) PartSpecifierHeader
  then
    let b := headerBlock email traEmail emailContent section in
    call (WriteBodySection section (Z.of_nat (String.length b))) >>>
    call (BodyWrite b) >>>
    call BodyClose
  else if PartSpecifier_eqb (Specifier section) PartSpecifierNone
          || PartSpecifier_eqb (Specifier section) PartSpecifierText
  then
    if len_positive (Part section)
    then
      match BuildPart env traEmail (Part section) with
      | Some partContent =>
          call (WriteBodySection section (Z.of_nat (String.length partContent))) >>>
          call (BodyWrite partContent) >>>
          call BodyClose
      | None =>
          call (WriteBodySection section 0) >>>
          call BodyClose
      end
    else
      call (WriteBodySection section (Z.of_nat (String.length emailContent))) >>>
      call (BodyWrite emailContent) >>>
      call BodyClose
  else io_ret tt.

(** The body of the loop of [write]: one message. *)
Definition writeMessage (email : EmailResponseData) (options : FetchOptions) : IO unit :=
  call (CreateMessage (ToUint32 env (SerialNumber email))) >>>
  let traEmail := NewEmailFromModel env (Email_ email) in
  when (OptUID options) (call (WriteUID (uint32 (UeId email)))) >>>
  when (OptEnvelope options) (call (WriteEnvelope (buildEnvelope email traEmail))) >>>
  match OptBodyStructure options with
  | Some bso => call (WriteBodyStructure (buildBodyStructure traEmail (BSExtended bso)))
  | None => io_ret tt
  end >>>
  when (OptRFC822Size options)
    (call (WriteRFC822Size (Z.of_nat (String.length (BuildBytes env traEmail))))) >>>
  when (OptFlags options)
    (if IsRead email =? 1 then call (WriteFlags [FlagSeen]) else call (WriteFlags [])) >>>
  when (OptInternalDate options)
    (call (WriteInternalDate (models.CreateTime (Email_ email)))) >>>
  forRange (OptBodySection options) (writeSection email traEmail) >>>
  call MessageClose.

(** [write]. *)
Definition write (emailList : list EmailResponseData) (options : FetchOptions) : IO unit :=
  forRange emailList (fun email => writeMessage email options).

(** [Fetch]: one lookup and one [write] per range of the set. *)
Definition Fetch (numSet : NumSet) (options : FetchOptions) : IO error :=
  match numSet with
  | OfSeqSet seqSet =>
      forRange seqSet
        (fun seq =>
           let emailList :=
             GetEmailListByGroup env (mkListReq (Start seq) (Stop seq)) false in
           write emailList options)
  | OfUIDSet uidSet =>
      forRange uidSet
        (fun uid =>
           let emailList :=
             GetEmailListByGroup env (mkListReq (uint32 (Start uid)) (uint32 (Stop uid)))
                                 true in
           write emailList options)
  end >>>
  io_ret nil_error.

End Handlers.

Section SearchHandler.

Variable env : Collaborators.
Variable UIDSet_Contains : UIDSet -> Z -> bool.
Variable SeqSet_Contains : SeqSet -> Z -> bool.
Variable mailbox : list UserEmailUIDData.
Variable Find : list Z -> FindResult.

(** The two scans [for _, data := range retList { if key(data) < ret.Min
    { ret.Min = key(data) } }] and its mirror image for [ret.Max]. *)
Definition scanMin (key : UserEmailUIDData -> Z) (retList : list UserEmailUIDData)
    (start : Z) : Z :=
  fold_left (fun m data => if key data <? m then key data else m) retList start.

Definition scanMax (key : UserEmailUIDData -> Z) (retList : list UserEmailUIDData)
    (start : Z) : Z :=
  fold_left (fun m data => if m <? key data then key data else m) retList start.

(** The part of [Search] after the error test, for one kind of number:
    [rangeOf] builds the singleton range, [key] is the number reported
    by the aggregates. *)
Definition searchData (uid : bool) (rangeOf key : UserEmailUIDData -> Z)
    (retList : list UserEmailUIDData) (options : option SearchOptions) : SearchData :=
  let idList :=
    fold_left (fun idList data => idList ++ [mkRange (rangeOf data) (rangeOf data)])
              retList [] in
  let count := uint32 (Z.of_nat (length retList)) in
  let min :=
    match options, retList with
    | Some o, first :: _ =>
        if ReturnMin o then scanMin key retList (key first) else 0
    | _, _ => 0
    end in
  let max :=
    match options, retList with
    | Some o, first :: _ =>
        if ReturnMax o then scanMax key retList (key first) else 0
    | _, _ => 0
    end in
  mkSearchData idList uid min max count.

(** [Search]. *)
Definition Search (kind : NumKind) (criteria : option SearchCriteria)
    (options : option SearchOptions) : option SearchData * error :=
  let '(retList, err) :=
    list_search.SearchEmails UIDSet_Contains SeqSet_Contains mailbox Find criteria in
  match err with
  | Some e => (None, Some e)
  | None =>
      match kind with
      | NumKindSeq =>
          (Some (searchData false
                   (fun data => ToUint32 env (SerialNumber data))
                   (fun data => ToUint32 env (SerialNumber data))
                   retList options),
           nil_error)
      | NumKindUID =>
          (Some (searchData true
                   (fun data => uint32 (ID data))
                   (fun data => ToUint32 env (ID data))
                   retList options),
           nil_error)
      end
  end.

End SearchHandler.

End imap_server.

(* ===================================================================== *)
(** ** Properties of the criteria evaluator                               *)
(* ===================================================================== *)

Module search_spec.

Import imap list_search.

(** The specification's "every field at its zero/empty value", field by
    field; a date field is at its zero value when it is the zero
    instant. *)
Definition fieldsAllZero (c : SearchCriteria) : Prop :=
  UID c = [] /\ SeqNum c = [] /\
  time.IsZero (Since c) = true /\ time.IsZero (Before c) = true /\
  time.IsZero (SentSince c) = true /\ time.IsZero (SentBefore c) = true /\
  Header c = [] /\ Body c = [] /\ imap.Text c = [] /\
  Flag_ c = [] /\ NotFlag c = [] /\
  Larger c = 0 /\ Smaller c = 0 /\
  Not c = [] /\ Or c = [].

(** A request that asks for nothing: a nil criteria pointer, or a node
    with every field zero. *)
Definition asksNothing (criteria : option SearchCriteria) : Prop :=
  match criteria with
  | None => True
  | Some c => fieldsAllZero c
  end.

(** Membership of a UID among the UIDs of a list. *)
Definition hasUID (uid : Z) (l : list UserEmailUIDData) : bool :=
  existsb (fun item => ID item =? uid) l.

(** A node whose only content is [NOT c]. *)
Definition notOnly (c : SearchCriteria) : SearchCriteria :=
  mkCriteria [] [] time.zero time.zero time.zero time.zero [] [] [] [] [] 0 0 [c] [].

(** A node whose only content is a list of OR pairs. *)
Definition orOnly (pairs : list (SearchCriteria * SearchCriteria)) : SearchCriteria :=
  mkCriteria [] [] time.zero time.zero time.zero time.zero [] [] [] [] [] 0 0 [] pairs.

(** A node whose only content is a list of required flags. *)
Definition flagOnly (flags : list Flag) : SearchCriteria :=
  mkCriteria [] [] time.zero time.zero time.zero time.zero [] [] [] flags [] 0 0 [] [].

(** A node whose only content is a SINCE date; one whose only content is
    a BEFORE date. *)
Definition sinceOnly (t : time.Time) : SearchCriteria :=
  mkCriteria [] [] t time.zero time.zero time.zero [] [] [] [] [] 0 0 [] [].
Definition beforeOnly (t : time.Time) : SearchCriteria :=
  mkCriteria [] [] time.zero t time.zero time.zero [] [] [] [] [] 0 0 [] [].

(** The node [c] with its OR pairs taken away. *)
Definition withoutOr (c : SearchCriteria) : SearchCriteria :=
  mkCriteria (UID c) (SeqNum c) (Since c) (Before c) (SentSince c) (SentBefore c)
             (Header c) (Body c) (imap.Text c) (Flag_ c) (NotFlag c)
             (Larger c) (Smaller c) (Not c) [].

(** An item matches a pair when its UID is among the matches of either
    side. *)
Definition matchesPair (srch : SearchCriteria -> list UserEmailUIDData * error)
    (item : UserEmailUIDData) (pair : SearchCriteria * SearchCriteria) : bool :=
  hasUID (ID item) (fst (srch (fst pair))) || hasUID (ID item) (fst (srch (snd pair))).

(** The composition of OR pairs as the specification words it: the
    intersection, over the pairs, of the candidates that match the pair. *)
Definition orIntersectionOfUnions (srch : SearchCriteria -> list UserEmailUIDData * error)
    (candidates : list UserEmailUIDData) (pairs : list (SearchCriteria * SearchCriteria))
  : list UserEmailUIDData :=
  List.filter (fun item => forallb (matchesPair srch item) pairs) candidates.

(** The composition the evaluator computes: the candidates that match at
    least one of the pairs. *)
Definition orUnionOfUnions (srch : SearchCriteria -> list UserEmailUIDData * error)
    (candidates : list UserEmailUIDData) (pairs : list (SearchCriteria * SearchCriteria))
  : list UserEmailUIDData :=
  List.filter (fun item => existsb (matchesPair srch item) pairs) candidates.

End search_spec.

(** Sample data used by the examples below. *)
Module samples.

Import imap.

(** A number set read as a union of closed ranges. *)
Definition inRanges (s : list NumRange) (n : Z) : bool :=
  existsb (fun r => (Start r <=? n) && (n <=? Stop r)) s.

(** A store whose lookups fail, and a store without rows. *)
Definition failingStore (ids : list Z) : FindResult := FindErr "connection lost".
Definition emptyStore (ids : list Z) : FindResult := FindOk [].

(** Three messages, UIDs 10, 11, 12 at sequence numbers 1, 2, 3: the
    first read, the second deleted, the third neither. *)
Definition m10 : UserEmailUIDData := mkUE 10 1 100 1 0.
Definition m11 : UserEmailUIDData := mkUE 11 2 101 0 3.
Definition m12 : UserEmailUIDData := mkUE 12 3 102 0 0.
Definition mailbox3 : list UserEmailUIDData := [m10; m11; m12].

(** [OR SEEN SEEN OR DELETED DELETED]. *)
Definition twoOrPairs : list (SearchCriteria * SearchCriteria) :=
  [ (search_spec.flagOnly [FlagSeen], search_spec.flagOnly [FlagSeen]);
    (search_spec.flagOnly [FlagDeleted], search_spec.flagOnly [FlagDeleted]) ].

(** Seconds from the zero instant to 2024-01-02 00:00:00 UTC (day 738886
    of the proleptic calendar, counted from 0). *)
Definition jan2_2024 : Z := 738886 * 86400.

(** The criterion date 2-Jan-2024, in UTC. *)
Definition dateJan2 : time.Time := time.mkTime jan2_2024 0 0.

(** A message stored at 2024-01-02 01:00:00 +08:00, that is
    2024-01-01 17:00:00 UTC. *)
Definition stampEast : time.Time := time.mkTime (jan2_2024 - 7 * 3600) 0 (8 * 3600).
Definition emailEast : models.Email :=
  models.mkEmail 100 "Invoice #4" "A" "a@b.com" "" "" "" "" ""
    (models.mkNullString "" false) (models.mkNullString "" false)
    0 stampEast stampEast.

(** A store holding that one message. *)
Definition storeEast (ids : list Z) : FindResult := FindOk [emailEast].

(** A message with subject "Hi" from "A" <a@b.com>, a plain-text body
    and no attachment, as the FETCH handler sees it. *)
Definition emailHi : models.Email :=
  models.mkEmail 100 "Hi" "A" "a@b.com" "c@d.com" "" "" "" ""
    (models.mkNullString "hello" true) (models.mkNullString "" false)
    5 stampEast stampEast.
Definition messageHi : response.EmailResponseData :=
  response.mkEmailResponse emailHi 0 1 10.
Definition parsedHi : parsemail.Email :=
  parsemail.mkParsed None [] [parsemail.mkUser "" "c@d.com"] [] [] "" "hello" [].

(** Collaborators for the examples: a domain, a date printer with one
    answer, a word encoder that leaves ASCII text alone, a parser that
    always yields [parsedHi], and a mailbox holding [messageHi]. *)
Definition sampleEnv : imap_server.Collaborators :=
  imap_server.mkCollaborators
    "example.com"
    (fun z => if z <? 0 then 0 else uint32 z)
    (fun _ => "Tue, 02 Jan 2024 01:00:00 +0800")
    (fun s => s)
    (fun _ => parsedHi)
    (fun p => "Content-Type: text/plain;" +:+ imap_server.CRLF +:+ " charset=utf-8"
              +:+ imap_server.CRLF +:+ imap_server.CRLF +:+ parsemail.Text p)
    (fun _ _ => None)
    (fun _ => "c@d.com")
    (fun _ => "")
    (fun _ => "")
    (fun _ _ => [messageHi]).

(** [BODY[HEADER]] and [BODY[]], neither marked peek. *)
Definition sectionHeader : imap_server.FetchItemBodySection :=
  imap_server.mkSection imap_server.PartSpecifierHeader [] [] [] false.
Definition sectionWhole : imap_server.FetchItemBodySection :=
  imap_server.mkSection imap_server.PartSpecifierNone [] [] [] false.

(** A FETCH of those two sections and nothing else. *)
Definition twoSections : imap_server.FetchOptions :=
  imap_server.mkFetchOptions false false None false false false
    [sectionWhole; sectionHeader].

End samples.

Module fetch_spec.

Import imap_server.

(** The ids handed to [detail.MakeRead] during a run, in order. *)
Definition markReadCalls (calls : list Event) : list Z :=
  flat_map (fun e => match e with MakeRead id _ => [id] | _ => [] end) calls.

(** The number of requested body sections not marked peek. *)
Definition nonPeekCount (options : FetchOptions) : nat :=
  length (List.filter (fun section => negb (Peek section)) (OptBodySection options)).

(** The ten fields the header branch of [write] knows how to emit. *)
Definition recognizedHeaderFields : list string :=
  ["date"; "subject"; "from"; "sender"; "reply-to"; "to"; "cc"; "bcc";
   "message-id"; "content-type"].

(** A header section that names its fields. *)
Definition headerSectionOf (fields : list string) : FetchItemBodySection :=
  mkSection PartSpecifierHeader [] fields [] true.

(** The body structure as the specification words it: the alternative
    part alone when there is no attachment, wrapped in a mixed multipart
    otherwise. *)
Definition bodyStructureAsSpecified (alt : BodyStructure) (extend : bool)
    (atts : list BodyStructure) : BodyStructure :=
  if len_is_zero atts then alt else bsMixedWithAttachments alt extend atts.

(** The part built for one attachment. *)
Definition attachmentPart (attachment : parsemail.Attachment) : BodyStructure :=
  SinglePart
    (bsAttachment (parsemail.Filename attachment) (parsemail.ContentType attachment)
       (uint32 (Z.of_nat (String.length (parsemail.Content attachment)))) "base64").

(** The messages a FETCH writes, in order: for each range of the set, the
    messages its lookup lists. *)
Definition listedMessages (env : Collaborators) (numSet : NumSet)
  : list response.EmailResponseData :=
  match numSet with
  | OfSeqSet seqSet =>
      flat_map
        (fun seq =>
           GetEmailListByGroup env (mkListReq (imap.Start seq) (imap.Stop seq)) false)
        seqSet
  | OfUIDSet uidSet =>
      flat_map
        (fun uid =>
           GetEmailListByGroup env
             (mkListReq (uint32 (imap.Start uid)) (uint32 (imap.Stop uid))) true)
        uidSet
  end.

(** The calls made on a body-section writer, and the calls that write one
    of the other items of a message. *)
Definition isBodyCall (e : Event) : bool :=
  match e with
  | WriteBodySection _ _ | BodyWrite _ | BodyClose => true
  | _ => false
  end.
Definition isItemCall (e : Event) : bool :=
  match e with
  | WriteUID _ | WriteEnvelope _ | WriteBodyStructure _ | WriteRFC822Size _
  | WriteFlags _ | WriteInternalDate _ => true
  | _ => false
  end.

End fetch_spec.

(* ===================================================================== *)
(** ** Further vocabulary for stating what the handlers do                *)
(* ===================================================================== *)

Module coverage_spec.

Import imap list_search search_spec imap_server.

(** Nodes whose only content is a size bound. *)
Definition largerOnly (n : Z) : SearchCriteria :=
  mkCriteria [] [] time.zero time.zero time.zero time.zero [] [] [] [] [] n 0 [] [].
Definition smallerOnly (n : Z) : SearchCriteria :=
  mkCriteria [] [] time.zero time.zero time.zero time.zero [] [] [] [] [] 0 n [] [].

(** The node [c] without the predicates that need the stored rows (dates,
    headers, body, text, sizes). *)
Definition withoutContent (c : SearchCriteria) : SearchCriteria :=
  mkCriteria (UID c) (SeqNum c) time.zero time.zero time.zero time.zero [] [] []
             (Flag_ c) (NotFlag c) 0 0 (Not c) (Or c).

(** The four flags [hasFlag] has a column for. *)
Definition trackedFlag (flag : Flag) : bool :=
  String.eqb flag FlagSeen || String.eqb flag FlagDeleted
  || String.eqb flag FlagDraft || String.eqb flag FlagJunk.

(** What a node without content predicates asks of one item of the
    mailbox: each field that is present must accept it. *)
Definition keeps (UIDSet_Contains : UIDSet -> Z -> bool) (SeqSet_Contains : SeqSet -> Z -> bool)
    (srch : SearchCriteria -> list UserEmailUIDData * error)
    (c : SearchCriteria) (item : UserEmailUIDData) : bool :=
  (len_is_zero (UID c)
   || existsb (fun uidSet => UIDSet_Contains uidSet (uint32 (ID item))) (UID c))
  && (len_is_zero (SeqNum c)
      || existsb (fun seqSet => SeqSet_Contains seqSet (uint32 (SerialNumber item)))
                 (SeqNum c))
  && (forallb (fun flag => hasFlag item flag) (Flag_ c)
      && forallb (fun flag => negb (hasFlag item flag)) (NotFlag c))
  && forallb (fun n => negb (hasUID (ID item) (fst (srch n)))) (Not c)
  && (len_is_zero (Or c) || existsb (matchesPair srch item) (Or c)).

(** The header keys whose field [matchesText] also looks into. *)
Definition textSearchedKeys : list string := ["subject"; "from"; "to"; "cc"; "bcc"].

(** The number reported for a match, and the number the aggregates scan,
    for each kind of SEARCH. *)
Definition reportedNumber (env : Collaborators) (kind : NumKind)
    (data : UserEmailUIDData) : Z :=
  match kind with
  | NumKindSeq => ToUint32 env (SerialNumber data)
  | NumKindUID => uint32 (ID data)
  end.
Definition aggregateKey (env : Collaborators) (kind : NumKind)
    (data : UserEmailUIDData) : Z :=
  match kind with
  | NumKindSeq => ToUint32 env (SerialNumber data)
  | NumKindUID => ToUint32 env (ID data)
  end.


(** The users that [usersToAddresses] keeps. *)
Definition hasAddress (u : parsemail.User) : bool :=
  negb (String.eqb (parsemail.EmailAddress u) "").

(** The discipline of the fetch writer, as a machine reading the calls of a
    run: a message is created, its items are written, and it is closed; a
    body section announces a size, receives that many bytes at most once,
    and is closed before anything else happens; [MakeRead] is called while
    a message is open. *)
Inductive WriterState :=
| Outside
| InMessage
| SectionOpen (declared : Z)
| SectionWritten
| Broken.

Definition step (s : WriterState) (e : Event) : WriterState :=
  match s, e with
  | Outside, CreateMessage _ => InMessage
  | InMessage, WriteUID _ => InMessage
  | InMessage, WriteEnvelope _ => InMessage
  | InMessage, WriteBodyStructure _ => InMessage
  | InMessage, WriteRFC822Size _ => InMessage
  | InMessage, WriteFlags _ => InMessage
  | InMessage, WriteInternalDate _ => InMessage
  | InMessage, MakeRead _ _ => InMessage
  | InMessage, WriteBodySection _ declared => SectionOpen declared
  | InMessage, MessageClose => Outside
  | SectionOpen declared, BodyWrite content =>
      if declared =? Z.of_nat (String.length content) then SectionWritten else Broken
  | SectionOpen declared, BodyClose => if declared =? 0 then InMessage else Broken
  | SectionWritten, BodyClose => InMessage
  | _, _ => Broken
  end.

Definition replay (calls : list Event) (s : WriterState) : WriterState :=
  fold_left step calls s.

(** The number of messages created in a run. *)
Definition messagesCreated (calls : list Event) : nat :=
  length (List.filter (fun e => match e with CreateMessage _ => true | _ => false end) calls).

(** The field names the header branch has a case that writes something. *)
Definition isRecognizedField (fieldLower : string) : bool :=
  existsb (String.eqb fieldLower) fetch_spec.recognizedHeaderFields.

(** Strings and stored rows made of ASCII bytes only. *)
Fixpoint isASCII (s : string) : bool :=
  match s with
  | EmptyString => true
  | String c rest => Nat.ltb (nat_of_ascii c) 128 && isASCII rest
  end.

Definition asciiEmail (email : models.Email) : bool :=
  isASCII (models.Subject email) && isASCII (models.FromName email)
  && isASCII (models.FromAddress email) && isASCII (models.To email)
  && isASCII (models.Cc email) && isASCII (models.Bcc email)
  && isASCII (models.ReplyTo email) && isASCII (models.Sender email)
  && isASCII (models.NString (models.Text email))
  && isASCII (models.NString (models.Html email)).

End coverage_spec.

(** Further sample data. *)
Module coverage_samples.

Import imap imap_server samples.

(** An unread draft, UID 13 at sequence number 4. *)
Definition m13 : UserEmailUIDData := mkUE 13 4 103 0 4.

(** [UID 10:11 SEEN]. *)
Definition uidRangeSeen : SearchCriteria :=
  mkCriteria [[mkRange 10 11]] [] time.zero time.zero time.zero time.zero
             [] [] [] [FlagSeen] [] 0 0 [] [].

(** [SINCE 2-Jan-2024 SEEN]. *)
Definition sinceSeen : SearchCriteria :=
  mkCriteria [] [] dateJan2 time.zero time.zero time.zero [] [] [] [FlagSeen] [] 0 0 [] [].

(** A stored row for [m10]'s message, 2048 bytes. *)
Definition emailInvoice : models.Email :=
  models.mkEmail 100 "Invoice #4" "Billing" "billing@shop.example" "me@home.example"
    "" "" "" ""
    (models.mkNullString "Please pay." true) (models.mkNullString "" false)
    2048 stampEast stampEast.

(** A store that answers every lookup with that row. *)
Definition storeInvoice (ids : list Z) : FindResult := FindOk [emailInvoice].

Definition bothAggregates : SearchOptions := mkSearchOptions true true.

(** [BODY[1.MIME]] and [BODY[7]], not marked peek. *)
Definition sectionMime : FetchItemBodySection :=
  mkSection PartSpecifierMIME [1] [] [] false.
Definition sectionPart7 : FetchItemBodySection :=
  mkSection PartSpecifierNone [7] [] [] false.

(** Everything a FETCH can ask for, on three sections. *)
Definition fullFetch : FetchOptions :=
  mkFetchOptions true true (Some (mkFetchBS true)) true true true
    [sectionWhole; sectionHeader; sectionPart7].

(** A parsed message whose reply-to entries carry no address. *)
Definition parsedBlankReplyTo : parsemail.Email :=
  parsemail.mkParsed None [parsemail.mkUser "Nobody" ""] [] [] [] "" "hello" [].

End coverage_samples.

Section GoLoops.

Context {A : Type}.

Lemma fold_append_filter (keep : A -> bool) (l acc : list A) :
  fold_left (fun result item => if keep item then result ++ [item] else result) l acc
  = acc ++ List.filter keep l.
Proof.
  revert acc; induction l as [|x l IH]; intros acc; simpl.
  - now rewrite app_nil_r.
  - rewrite IH. destruct (keep x); simpl; [now rewrite <- app_assoc | reflexivity].
Qed.

Lemma rangeAppend_filter (keep : A -> bool) (l : list A) :
  rangeAppend keep l = List.filter keep l.
Proof. unfold rangeAppend. now rewrite fold_append_filter. Qed.

Lemma fold_append_map {B} (f : A -> B) (l : list A) (acc : list B) :
  fold_left (fun out item => out ++ [f item]) l acc = acc ++ List.map f l.
Proof.
  revert acc; induction l as [|x l IH]; intros acc; simpl.
  - now rewrite app_nil_r.
  - rewrite IH. now rewrite <- app_assoc.
Qed.

Lemma List_filter_sublist (keep : A -> bool) (l : list A) :
  List.filter keep l `sublist_of` l.
Proof.
  induction l as [|x l IH]; simpl.
  - constructor.
  - destruct (keep x); now constructor.
Qed.

Lemma rangeAppend_sublist (keep : A -> bool) (l : list A) :
  rangeAppend keep l `sublist_of` l.
Proof. rewrite rangeAppend_filter. apply List_filter_sublist. Qed.

Lemma len_is_zero_nil (l : list A) : len_is_zero l = true <-> l = [].
Proof. destruct l; simpl; split; congruence. Qed.

Lemma len_positive_false (l : list A) : len_positive l = false <-> l = [].
Proof. unfold len_positive. destruct l; simpl; split; congruence. Qed.

End GoLoops.

Module search_facts.

Import imap list_search search_spec.

Lemma readBool_fold_insert (l : list UserEmailUIDData) (m : gmap Z bool) (k : Z) :
  readBool (fold_left (fun m item => <[ID item := true]> m) l m) k
  = hasUID k l || readBool m k.
Proof.
  revert m; induction l as [|x l IH]; intros m; simpl; [reflexivity|].
  rewrite IH. unfold readBool. rewrite lookup_insert.
  destruct (decide (ID x = k)) as [->|Hne]; simpl.
  - rewrite Z.eqb_refl. now rewrite orb_true_r.
  - apply Z.eqb_neq in Hne. rewrite Hne. reflexivity.
Qed.

Lemma readBool_uidSetOf (l : list UserEmailUIDData) (k : Z) :
  readBool (uidSetOf l) k = hasUID k l.
Proof.
  unfold uidSetOf. rewrite readBool_fold_insert.
  unfold readBool. rewrite lookup_empty. simpl. apply orb_false_r.
Qed.

Lemma hasUID_In (k : Z) (l : list UserEmailUIDData) :
  hasUID k l = true <-> exists item, In item l /\ ID item = k.
Proof.
  unfold hasUID. rewrite existsb_exists.
  split; intros (x & Hin & Hx); exists x; split; auto; now apply Z.eqb_eq.
Qed.

Lemma isEmptyCriteria_fieldsAllZero (c : SearchCriteria) :
  isEmptyCriteria c = true <-> fieldsAllZero c.
Proof.
  unfold isEmptyCriteria, fieldsAllZero.
  rewrite !andb_true_iff, !len_is_zero_nil, !Z.eqb_eq. tauto.
Qed.

Section WithStore.

Variable UIDSet_Contains : UIDSet -> Z -> bool.
Variable SeqSet_Contains : SeqSet -> Z -> bool.
Variable mailbox : list UserEmailUIDData.
Variable Find : list Z -> FindResult.

Abbreviation searchAt := (SearchEmailsAt UIDSet_Contains SeqSet_Contains mailbox Find).
Abbreviation search := (SearchEmails UIDSet_Contains SeqSet_Contains mailbox Find).

Lemma applyNotCriteria_filter srch l notCriteria :
  applyNotCriteria srch l notCriteria
  = List.filter (fun item => negb (hasUID (ID item) (fst (srch notCriteria)))) l.
Proof.
  unfold applyNotCriteria. destruct (srch notCriteria) as [matched e]; simpl.
  rewrite rangeAppend_filter. apply List.filter_ext. intros a.
  now rewrite readBool_uidSetOf.
Qed.

Lemma applyNotCriteria_sublist srch l notCriteria :
  applyNotCriteria srch l notCriteria `sublist_of` l.
Proof. rewrite applyNotCriteria_filter. apply List_filter_sublist. Qed.

Lemma applyOrCriteria_sublist srch l orCriteria :
  applyOrCriteria srch l orCriteria `sublist_of` l.
Proof.
  unfold applyOrCriteria. destruct (len_is_zero orCriteria); [reflexivity|].
  apply rangeAppend_sublist.
Qed.

Lemma filterWithEmailData_sublist l criteria :
  filterWithEmailData Find l criteria `sublist_of` l.
Proof.
  unfold filterWithEmailData. destruct (len_is_zero l); [reflexivity|].
  destruct (Find _); [apply rangeAppend_sublist | reflexivity].
Qed.

Lemma fold_applyNot_sublist srch nots l :
  fold_left (fun baseList notCriteria => applyNotCriteria srch baseList notCriteria)
            nots l `sublist_of` l.
Proof.
  revert l; induction nots as [|n nots IH]; intros l; simpl; [reflexivity|].
  etransitivity; [apply IH | apply applyNotCriteria_sublist].
Qed.

(** The body of [SearchEmailsAt], one unfolding. *)
Lemma SearchEmailsAt_unfold criteria :
  searchAt criteria =
  let baseList := mailbox in
  if len_is_zero baseList then (baseList, nil_error)
  else if isEmptyCriteria criteria then (baseList, nil_error)
  else
    let baseList :=
      if len_positive (UID criteria)
      then filterByUIDSets UIDSet_Contains baseList (UID criteria)
      else baseList in
    let baseList :=
      if len_positive (SeqNum criteria)
      then filterBySeqNumSets SeqSet_Contains baseList (SeqNum criteria)
      else baseList in
    let baseList :=
      if needsEmailData criteria then filterWithEmailData Find baseList criteria
      else baseList in
    let baseList :=
      if len_positive (Flag_ criteria) || len_positive (NotFlag criteria)
      then filterByFlags baseList (Flag_ criteria) (NotFlag criteria)
      else baseList in
    let baseList :=
      if len_positive (Not criteria)
      then fold_left
             (fun baseList notCriteria => applyNotCriteria searchAt baseList notCriteria)
             (Not criteria) baseList
      else baseList in
    let baseList :=
      if len_positive (Or criteria)
      then applyOrCriteria searchAt baseList (Or criteria)
      else baseList in
    (baseList, nil_error).
Proof. destruct criteria; reflexivity. Qed.

Lemma SearchEmailsAt_sublist criteria :
  fst (searchAt criteria) `sublist_of` mailbox.
Proof.
  rewrite SearchEmailsAt_unfold. cbv zeta.
  destruct (len_is_zero mailbox); [reflexivity|].
  destruct (isEmptyCriteria criteria); [reflexivity|]. simpl.
  repeat match goal with
         | |- context [if ?b then _ else _] => destruct b
         end;
    repeat first
      [ reflexivity
      | apply rangeAppend_sublist
      | (etransitivity; [apply applyOrCriteria_sublist|])
      | (etransitivity; [apply fold_applyNot_sublist|])
      | (etransitivity; [apply rangeAppend_sublist|])
      | (etransitivity; [apply filterWithEmailData_sublist|]) ].
Qed.

Lemma SearchEmailsAt_nil_error criteria : snd (searchAt criteria) = nil_error.
Proof.
  rewrite SearchEmailsAt_unfold. cbv zeta.
  destruct (len_is_zero mailbox); [reflexivity|].
  destruct (isEmptyCriteria criteria); reflexivity.
Qed.

Lemma SearchEmails_nil_error criteria : snd (search criteria) = nil_error.
Proof.
  destruct criteria as [c|]; simpl.
  - apply SearchEmailsAt_nil_error.
  - unfold GetUEListByUID. destruct (len_is_zero mailbox); reflexivity.
Qed.

End WithStore.

End search_facts.

Module or_facts.

Import imap list_search search_spec search_facts.

Lemma readBool_insert_true (m : gmap Z bool) (i k : Z) :
  readBool (<[i := true]> m) k = (i =? k) || readBool m k.
Proof.
  unfold readBool. rewrite lookup_insert.
  destruct (decide (i = k)) as [->|Hne]; simpl.
  - now rewrite Z.eqb_refl.
  - apply Z.eqb_neq in Hne. now rewrite Hne.
Qed.

Lemma readBool_collectCurrent cur matches r k :
  readBool (collectCurrent cur matches r) k
  = (readBool cur k && hasUID k matches) || readBool r k.
Proof.
  unfold collectCurrent. revert r.
  induction matches as [|x matches IH]; intros r; simpl.
  - now rewrite andb_false_r.
  - rewrite IH. destruct (Z.eqb_spec (ID x) k) as [Heq|Hne].
    + subst k. destruct (readBool cur (ID x)) eqn:Hcur; simpl.
      * rewrite readBool_insert_true, Z.eqb_refl. simpl. now rewrite orb_true_r.
      * reflexivity.
    + destruct (readBool cur (ID x)) eqn:Hcur; simpl.
      * rewrite readBool_insert_true. apply Z.eqb_neq in Hne. rewrite Hne. reflexivity.
      * reflexivity.
Qed.

Lemma readBool_or_loop (srch : SearchCriteria -> list UserEmailUIDData * error)
    cur pairs r k :
  readBool
    (fold_left
       (fun resultUIDs pair =>
          let '(matches1, _) := srch (fst pair) in
          let resultUIDs := collectCurrent cur matches1 resultUIDs in
          let '(matches2, _) := srch (snd pair) in
          collectCurrent cur matches2 resultUIDs)
       pairs r) k
  = (readBool cur k
     && existsb (fun pair => hasUID k (fst (srch (fst pair)))
                             || hasUID k (fst (srch (snd pair)))) pairs)
    || readBool r k.
Proof.
  revert r. induction pairs as [|[a b] pairs IH]; intros r; simpl.
  - now rewrite andb_false_r.
  - rewrite IH. destruct (srch a) as [ma ea], (srch b) as [mb eb]; simpl.
    rewrite !readBool_collectCurrent.
    destruct (readBool cur k), (hasUID k ma), (hasUID k mb), (readBool r k),
      (existsb _ pairs); reflexivity.
Qed.

(** [applyOrCriteria] on at least one pair keeps the candidates that
    match some pair. *)
Lemma applyOrCriteria_union (srch : SearchCriteria -> list UserEmailUIDData * error)
    l pairs :
  len_positive pairs = true ->
  applyOrCriteria srch l pairs = orUnionOfUnions srch l pairs.
Proof.
  intros Hpos. unfold applyOrCriteria, orUnionOfUnions.
  unfold len_positive in Hpos. apply negb_true_iff in Hpos. rewrite Hpos.
  rewrite rangeAppend_filter. apply List.filter_ext_in. intros item Hin.
  rewrite readBool_or_loop. rewrite readBool_uidSetOf.
  assert (Hself : hasUID (ID item) l = true)
    by (apply hasUID_In; exists item; auto).
  rewrite Hself. unfold readBool. rewrite lookup_empty. simpl.
  now rewrite orb_false_r.
Qed.

Section WithStore.

Variable UIDSet_Contains : UIDSet -> Z -> bool.
Variable SeqSet_Contains : SeqSet -> Z -> bool.
Variable mailbox : list UserEmailUIDData.
Variable Find : list Z -> FindResult.

Abbreviation searchAt := (SearchEmailsAt UIDSet_Contains SeqSet_Contains mailbox Find).

(** A node with OR pairs is evaluated as the node without them,
    followed by [applyOrCriteria]. *)
Lemma SearchEmailsAt_or_last c :
  len_positive (Or c) = true ->
  fst (searchAt c) = applyOrCriteria searchAt (fst (searchAt (withoutOr c))) (Or c).
Proof.
  intros Hpos.
  rewrite (SearchEmailsAt_unfold _ _ _ _ c).
  rewrite (SearchEmailsAt_unfold _ _ _ _ (withoutOr c)).
  cbv zeta.
  destruct (len_is_zero mailbox) eqn:Hmb.
  { simpl. apply len_is_zero_nil in Hmb. rewrite Hmb.
    unfold applyOrCriteria. destruct (len_is_zero (Or c)); reflexivity. }
  assert (Hne : isEmptyCriteria c = false).
  { unfold isEmptyCriteria. unfold len_positive in Hpos.
    apply negb_true_iff in Hpos. rewrite Hpos. apply andb_false_r. }
  rewrite Hne, Hpos.
  destruct (isEmptyCriteria (withoutOr c)) eqn:Hemp.
  - apply isEmptyCriteria_fieldsAllZero in Hemp.
    destruct c as [uid seq since before ssince sbefore hdr body text fl nfl lg sm nots ors].
    unfold fieldsAllZero, withoutOr in Hemp; simpl in Hemp.
    destruct Hemp as (Hu & Hq & Hs & Hb & Hss & Hsb & Hh & Hbd & Ht & Hf & Hnf & Hl & Hsm & Hn & _).
    subst. unfold needsEmailData; simpl. rewrite Hs, Hb, Hss, Hsb. reflexivity.
  - destruct c; reflexivity.
Qed.

End WithStore.

End or_facts.

Module date_facts.

Import imap list_search search_spec.

(** Comparing a stored instant with a truncated criterion is comparing
    civil days, both read in the location of the criterion. *)
Lemma Before_truncateToDate (t u : time.Time) :
  0 <= time.nsec t ->
  time.Before t (truncateToDate u)
  = (time.civilDayIn (time.offset u) t <? time.civilDay u).
Proof.
  intros Hns. unfold time.Before, truncateToDate, time.DateMidnight,
    time.civilDayIn, time.civilDay; simpl.
  set (d := (time.sec u + time.offset u) / 86400).
  assert (Hn : (time.nsec t <? 0) = false) by (apply Z.ltb_ge; lia).
  rewrite Hn, andb_false_r, orb_false_r.
  destruct (Z.ltb_spec (time.sec t) (d * 86400 - time.offset u)) as [Hlt|Hge];
    symmetry.
  - apply Z.ltb_lt. apply Z.div_lt_upper_bound; lia.
  - apply Z.ltb_ge. apply Z.div_le_lower_bound; lia.
Qed.

(** When the stored time and the criterion share a location, the SINCE
    test is "the message's day is not before the criterion's day" and the
    BEFORE test is "the message's day is before the criterion's day". *)
Lemma since_same_location (email : models.Email) (t : time.Time) :
  0 <= time.nsec (models.CreateTime email) ->
  time.offset (models.CreateTime email) = time.offset t ->
  time.IsZero t = false ->
  matchesEmailCriteria email (sinceOnly t)
  = (time.civilDay t <=? time.civilDay (models.CreateTime email)).
Proof.
  intros Hns Hoff Hz. unfold matchesEmailCriteria, sinceOnly; simpl.
  rewrite Hz; simpl. rewrite Before_truncateToDate by exact Hns.
  unfold time.civilDayIn. rewrite <- Hoff. fold (time.civilDay (models.CreateTime email)).
  rewrite Z.leb_antisym. now destruct (_ <? _).
Qed.

Lemma before_same_location (email : models.Email) (t : time.Time) :
  0 <= time.nsec (models.CreateTime email) ->
  time.offset (models.CreateTime email) = time.offset t ->
  time.IsZero t = false ->
  matchesEmailCriteria email (beforeOnly t)
  = (time.civilDay (models.CreateTime email) <? time.civilDay t).
Proof.
  intros Hns Hoff Hz. unfold matchesEmailCriteria, beforeOnly; simpl.
  rewrite Hz; simpl. rewrite Before_truncateToDate by exact Hns.
  unfold time.civilDayIn. rewrite <- Hoff. fold (time.civilDay (models.CreateTime email)).
  now destruct (_ <? _).
Qed.

End date_facts.

Module search_claims.

Import imap list_search search_spec search_facts or_facts samples.

(** C1 (the code at the failing input).  With the two pairs
    [OR SEEN SEEN] and [OR DELETED DELETED] on a mailbox holding one read,
    one deleted and one plain message, the evaluator returns the read and
    the deleted message, while the intersection over the pairs, which the
    claim and the protocol ask for, is empty. *)
Lemma or_pairs_not_intersection :
  fst (SearchEmails inRanges inRanges mailbox3 failingStore (Some (orOnly twoOrPairs)))
  = [m10; m11]
  /\ orIntersectionOfUnions (SearchEmailsAt inRanges inRanges mailbox3 failingStore)
       mailbox3 twoOrPairs
     = [].
Proof. split; vm_compute; reflexivity. Qed.

(** What [applyOrCriteria] computes instead.  For every mailbox and
    every criteria node with at least one OR pair, the result of the
    evaluator is the candidate list left by the other fields of the node,
    restricted to the items whose UID is matched by either side of at
    least one pair. *)
Theorem or_pairs_union_of_unions
    (UIDSet_Contains : UIDSet -> Z -> bool) (SeqSet_Contains : SeqSet -> Z -> bool)
    (mailbox : list UserEmailUIDData) (Find : list Z -> FindResult)
    (c : SearchCriteria) :
  (1 <= length (Or c))%nat ->
  fst (SearchEmails UIDSet_Contains SeqSet_Contains mailbox Find (Some c))
  = orUnionOfUnions
      (fun c' => SearchEmails UIDSet_Contains SeqSet_Contains mailbox Find (Some c'))
      (fst (SearchEmails UIDSet_Contains SeqSet_Contains mailbox Find (Some (withoutOr c))))
      (Or c).
Proof.
  intros Hlen.
  assert (Hpos : len_positive (Or c) = true).
  { destruct (Or c); simpl in *; [lia | reflexivity]. }
  simpl. rewrite SearchEmailsAt_or_last by exact Hpos.
  now apply applyOrCriteria_union.
Qed.

Lemma or_pairs_union_of_unions_witness :
  (1 <= length (Or (orOnly twoOrPairs)))%nat
  /\ fst (SearchEmails inRanges inRanges mailbox3 failingStore (Some (orOnly twoOrPairs)))
     = orUnionOfUnions
         (fun c' => SearchEmails inRanges inRanges mailbox3 failingStore (Some c'))
         (fst (SearchEmails inRanges inRanges mailbox3 failingStore
                 (Some (withoutOr (orOnly twoOrPairs)))))
         (Or (orOnly twoOrPairs)).
Proof.
  split; [simpl; lia|].
  apply (or_pairs_union_of_unions inRanges inRanges mailbox3 failingStore
           (orOnly twoOrPairs)).
  simpl; lia.
Defined.

(** C5.  For every mailbox, a search with a nil criteria pointer, or
    with a node whose every field is at its zero or empty value, returns
    the base list itself, same members in the same order, and no
    error. *)
Theorem search_asksNothing_identity
    (UIDSet_Contains : UIDSet -> Z -> bool) (SeqSet_Contains : SeqSet -> Z -> bool)
    (mailbox : list UserEmailUIDData) (Find : list Z -> FindResult)
    (criteria : option SearchCriteria) :
  asksNothing criteria ->
  SearchEmails UIDSet_Contains SeqSet_Contains mailbox Find criteria
  = (mailbox, nil_error).
Proof.
  destruct criteria as [c|]; simpl; intros H.
  - rewrite SearchEmailsAt_unfold. cbv zeta.
    apply isEmptyCriteria_fieldsAllZero in H. rewrite H.
    destruct (len_is_zero mailbox); reflexivity.
  - unfold GetUEListByUID. destruct (len_is_zero mailbox); reflexivity.
Qed.

Lemma search_asksNothing_identity_witness :
  asksNothing (Some zeroCriteria)
  /\ SearchEmails inRanges inRanges mailbox3 failingStore (Some zeroCriteria)
     = (mailbox3, nil_error).
Proof.
  assert (H : asksNothing (Some zeroCriteria)) by (simpl; repeat split; reflexivity).
  split; [exact H|].
  exact (search_asksNothing_identity inRanges inRanges mailbox3 failingStore
           (Some zeroCriteria) H).
Defined.

(** C6.  For every mailbox and every criteria tree, the list returned by
    the evaluator is a subsequence of the base list: it is obtained from
    the base list by removing elements, so nothing is added, repeated or
    moved. *)
Theorem search_result_sublist
    (UIDSet_Contains : UIDSet -> Z -> bool) (SeqSet_Contains : SeqSet -> Z -> bool)
    (mailbox : list UserEmailUIDData) (Find : list Z -> FindResult)
    (criteria : option SearchCriteria) :
  fst (SearchEmails UIDSet_Contains SeqSet_Contains mailbox Find criteria)
    `sublist_of` mailbox.
Proof.
  destruct criteria as [c|]; simpl.
  - apply SearchEmailsAt_sublist.
  - unfold GetUEListByUID. destruct (len_is_zero mailbox); reflexivity.
Qed.

Lemma sublist_In {A} (l1 l2 : list A) (x : A) :
  l1 `sublist_of` l2 -> In x l1 -> In x l2.
Proof.
  induction 1 as [|y l1 l2 _ IH|y l1 l2 _ IH]; simpl; intuition.
Qed.

Lemma In_map_inj {A B} (f : A -> B) (l : list A) (x y : A) :
  NoDup (List.map f l) -> In x l -> In y l -> f x = f y -> x = y.
Proof.
  induction l as [|a l IH]; simpl; [tauto|].
  intros Hnd Hx Hy Hf. apply NoDup_cons in Hnd as [Hnotin Hnd].
  destruct Hx as [->|Hx], Hy as [->|Hy]; auto.
  - exfalso. apply Hnotin. rewrite Hf. apply list_elem_of_In. now apply in_map.
  - exfalso. apply Hnotin. rewrite <- Hf. apply list_elem_of_In. now apply in_map.
Qed.

Lemma notOnly_is_filter
    (UIDSet_Contains : UIDSet -> Z -> bool) (SeqSet_Contains : SeqSet -> Z -> bool)
    (mailbox : list UserEmailUIDData) (Find : list Z -> FindResult) (c : SearchCriteria) :
  fst (SearchEmailsAt UIDSet_Contains SeqSet_Contains mailbox Find (notOnly c))
  = List.filter
      (fun item =>
         negb (hasUID (ID item)
                 (fst (SearchEmailsAt UIDSet_Contains SeqSet_Contains mailbox Find c))))
      mailbox.
Proof.
  rewrite (SearchEmailsAt_unfold _ _ _ _ (notOnly c)). cbv zeta.
  destruct (len_is_zero mailbox) eqn:Hmb.
  - apply len_is_zero_nil in Hmb. now rewrite Hmb.
  - simpl. apply applyNotCriteria_filter.
Qed.

(** C7.  For every mailbox and every criteria node [c], the node whose
    only content is [NOT c] selects exactly the messages of the base list
    whose UID is not among the matches of [c]: no UID is in both results,
    every UID of the base list is in one of them, and, the UIDs of a
    mailbox being distinct, every message of the base list is in exactly
    one of the two results. *)
Theorem not_partitions_mailbox
    (UIDSet_Contains : UIDSet -> Z -> bool) (SeqSet_Contains : SeqSet -> Z -> bool)
    (mailbox : list UserEmailUIDData) (Find : list Z -> FindResult) (c : SearchCriteria) :
  let matches := fst (SearchEmails UIDSet_Contains SeqSet_Contains mailbox Find (Some c)) in
  let others :=
    fst (SearchEmails UIDSet_Contains SeqSet_Contains mailbox Find (Some (notOnly c))) in
  others = List.filter (fun item => negb (hasUID (ID item) matches)) mailbox
  /\ (forall uid, hasUID uid others && hasUID uid matches = false)
  /\ (forall uid, hasUID uid others || hasUID uid matches = hasUID uid mailbox)
  /\ (forall item, In item others -> In item matches -> False)
  /\ (NoDup (List.map ID mailbox) ->
      forall item, In item mailbox <-> (In item others \/ In item matches)).
Proof.
  intros matches others.
  assert (Hsub : matches `sublist_of` mailbox) by apply SearchEmailsAt_sublist.
  assert (Hothers : others
                    = List.filter (fun item => negb (hasUID (ID item) matches)) mailbox)
    by apply notOnly_is_filter.
  assert (Hin : forall item, In item others
                             <-> In item mailbox /\ hasUID (ID item) matches = false).
  { intros item. rewrite Hothers, List.filter_In, negb_true_iff. reflexivity. }
  split; [exact Hothers|]. split; [|split; [|split]].
  - intros uid. apply andb_false_iff.
    destruct (hasUID uid others) eqn:Ho; [right | now left].
    apply hasUID_In in Ho as (x & Hx & <-). now apply Hin in Hx.
  - intros uid. apply eq_iff_eq_true. rewrite orb_true_iff, !hasUID_In. split.
    + intros [(x & Hx & Hid)|(x & Hx & Hid)]; exists x; split; auto.
      * now apply Hin in Hx.
      * eapply sublist_In; eauto.
    + intros (x & Hx & Hid). destruct (hasUID uid matches) eqn:Hm.
      * right. now apply hasUID_In.
      * left. exists x. split; auto. apply Hin. split; auto. now rewrite Hid.
  - intros item Ho Hm. apply Hin in Ho as [_ Ho].
    assert (hasUID (ID item) matches = true) by (apply hasUID_In; eauto).
    congruence.
  - intros Hnd item. split.
    + intros Hmb. destruct (hasUID (ID item) matches) eqn:Hm.
      * right. apply hasUID_In in Hm as (y & Hy & Hid).
        assert (y = item); [|now subst].
        eapply In_map_inj; eauto. eapply sublist_In; eauto.
      * left. apply Hin. auto.
    + intros [Ho|Hm]; [now apply Hin in Ho | eapply sublist_In; eauto].
Qed.

Lemma not_partitions_mailbox_witness :
  NoDup (List.map ID mailbox3)
  /\ forall item,
       In item mailbox3 <->
       (In item (fst (SearchEmails inRanges inRanges mailbox3 failingStore
                        (Some (notOnly (flagOnly [FlagSeen])))))
        \/ In item (fst (SearchEmails inRanges inRanges mailbox3 failingStore
                           (Some (flagOnly [FlagSeen]))))).
Proof.
  assert (Hnd : NoDup (List.map ID mailbox3)).
  { apply (bool_decide_unpack _). vm_compute. exact I. }
  split; [exact Hnd|].
  exact (proj2 (proj2 (proj2 (proj2
           (not_partitions_mailbox inRanges inRanges mailbox3 failingStore
              (flagOnly [FlagSeen]))))) Hnd).
Defined.

(** C9.  For every candidate list and criteria, when the lookup of the
    candidates' rows in the store fails, the content-predicate pass
    returns the candidate list unchanged; and whatever the store does, a
    search over it returns its result with a nil error. *)
Theorem lookup_failure_fails_open
    (Find : list Z -> FindResult) (l : list UserEmailUIDData)
    (criteria : SearchCriteria) (err : string) :
  Find (List.map EmailID l) = FindErr err ->
  filterWithEmailData Find l criteria = l
  /\ forall UIDSet_Contains SeqSet_Contains mailbox request,
       snd (SearchEmails UIDSet_Contains SeqSet_Contains mailbox Find request) = nil_error.
Proof.
  intros Hfail. split.
  - unfold filterWithEmailData. destruct (len_is_zero l); [reflexivity|].
    rewrite fold_append_map. simpl. now rewrite Hfail.
  - intros. apply SearchEmails_nil_error.
Qed.

Lemma lookup_failure_fails_open_witness :
  failingStore (List.map EmailID mailbox3) = FindErr "connection lost"
  /\ filterWithEmailData failingStore mailbox3 (sinceOnly dateJan2) = mailbox3.
Proof.
  split; [reflexivity|].
  exact (proj1 (lookup_failure_fails_open failingStore mailbox3 (sinceOnly dateJan2)
                  "connection lost" eq_refl)).
Defined.

(** C10.  For every mailbox and every criteria tree, however deeply NOT
    and OR are nested, [SearchEmails] returns a nil error, and so the
    SEARCH handler always takes the branch that returns search data with
    a nil error. *)
Theorem search_never_errors
    (env : imap_server.Collaborators)
    (UIDSet_Contains : UIDSet -> Z -> bool) (SeqSet_Contains : SeqSet -> Z -> bool)
    (mailbox : list UserEmailUIDData) (Find : list Z -> FindResult)
    (kind : imap_server.NumKind) (criteria : option SearchCriteria)
    (options : option imap_server.SearchOptions) :
  snd (SearchEmails UIDSet_Contains SeqSet_Contains mailbox Find criteria) = nil_error
  /\ exists data,
       imap_server.Search env UIDSet_Contains SeqSet_Contains mailbox Find
                          kind criteria options
       = (Some data, nil_error).
Proof.
  pose proof (SearchEmails_nil_error UIDSet_Contains SeqSet_Contains mailbox Find criteria)
    as Hnil.
  split; [exact Hnil|].
  unfold imap_server.Search.
  destruct (SearchEmails _ _ _ _ criteria) as [retList e]; simpl in Hnil; subst e.
  unfold nil_error. destruct kind; eexists; reflexivity.
Qed.

(** C8 (the code at the failing input).  A message stored at
    2024-01-02 01:00 +08:00 has the calendar date 2 January 2024, the
    date of the criterion; yet it fails [SINCE 2-Jan-2024] and passes
    [BEFORE 2-Jan-2024], alone and through a whole search, because the
    stored instant is compared, untruncated, with midnight UTC. *)
Lemma date_filter_keeps_time_zone :
  time.civilDay (models.CreateTime emailEast) = time.civilDay dateJan2
  /\ matchesEmailCriteria emailEast (sinceOnly dateJan2) = false
  /\ matchesEmailCriteria emailEast (beforeOnly dateJan2) = true
  /\ fst (SearchEmails inRanges inRanges [m10] storeEast (Some (sinceOnly dateJan2))) = []
  /\ fst (SearchEmails inRanges inRanges [m10] storeEast (Some (beforeOnly dateJan2)))
     = [m10].
Proof. repeat split; vm_compute; reflexivity. Qed.

End search_claims.

(* ===================================================================== *)
(** ** Properties of the FETCH handler                                    *)
(* ===================================================================== *)

Module fetch_facts.

Import imap imap_server fetch_spec.

Lemma string_app_assoc (a b c : string) : (a +:+ b) +:+ c = a +:+ (b +:+ c).
Proof.
  induction a as [|x a IH]; [reflexivity|].
  change (String x ((a +:+ b) +:+ c) = String x (a +:+ (b +:+ c))).
  now rewrite IH.
Qed.

Lemma run_bind {A B} (m : IO A) (k : A -> IO B) :
  run (io_bind m k) = run m ++ run (k (fst m)).
Proof.
  unfold run, io_bind. destruct m as [a c1]; simpl. now destruct (k a).
Qed.

Lemma markReadCalls_app (c1 c2 : list Event) :
  markReadCalls (c1 ++ c2) = markReadCalls c1 ++ markReadCalls c2.
Proof. unfold markReadCalls. apply flat_map_app. Qed.

Lemma run_forRange_cons {A} (x : A) (l : list A) (body : A -> IO unit) :
  run (forRange (x :: l) body) = run (body x) ++ run (forRange l body).
Proof. simpl. apply run_bind. Qed.

Section WithCollaborators.

Variable env : Collaborators.

(** One section: one call of [MakeRead] unless the section is marked
    peek, whatever is then written. *)
Lemma markReadCalls_writeSection email traEmail section :
  markReadCalls (run (writeSection env email traEmail section))
  = if Peek section then [] else [models.Id (response.Email_ email)].
Proof.
  unfold writeSection. rewrite run_bind, markReadCalls_app. cbv zeta.
  destruct (Peek section); cbn [negb when];
    repeat match goal with
           | |- context [if ?b then _ else _] => destruct b
           | |- context [BuildPart env ?t ?p] => destruct (BuildPart env t p)
           end;
    reflexivity.
Qed.

Lemma markReadCalls_sections email traEmail sections :
  markReadCalls (run (forRange sections (writeSection env email traEmail)))
  = repeat (models.Id (response.Email_ email))
           (length (List.filter (fun section => negb (Peek section)) sections)).
Proof.
  induction sections as [|s sections IH]; [reflexivity|].
  rewrite run_forRange_cons, markReadCalls_app, markReadCalls_writeSection, IH.
  simpl. destruct (Peek s); reflexivity.
Qed.

Lemma markReadCalls_writeMessage email options :
  markReadCalls (run (writeMessage env email options))
  = repeat (models.Id (response.Email_ email)) (nonPeekCount options).
Proof.
  unfold writeMessage, nonPeekCount. cbv zeta.
  rewrite !run_bind, !markReadCalls_app, markReadCalls_sections.
  destruct (OptUID options), (OptEnvelope options), (OptBodyStructure options),
    (OptRFC822Size options), (OptFlags options), (OptInternalDate options),
    (response.IsRead email =? 1); simpl; now rewrite app_nil_r.
Qed.

(** What one field adds to the header buffer is nothing, or one line
    closed by CRLF; the block then ends with the CRLF of its last line
    followed by the closing CRLF, a blank line. *)
Lemma headerField_line email traEmail emailContent field :
  headerField env email traEmail emailContent field = ""
  \/ exists line, headerField env email traEmail emailContent field = line +:+ CRLF.
Proof.
  unfold headerField. cbv zeta.
  repeat match goal with
         | |- context [if ?b then _ else _] => destruct b
         | |- context [match ?l with [] => _ | _ :: _ => _ end] => destruct l
         end;
    try (left; reflexivity);
    right; rewrite <- ?string_app_assoc; eexists; reflexivity.
Qed.

End WithCollaborators.

End fetch_facts.

Module fetch_claims.

Import imap imap_server fetch_spec fetch_facts samples.

(** C2 (counterexample).  A FETCH of the single message at sequence
    number 1 that asks for [BODY[]] and [BODY[HEADER]], neither marked
    peek, calls [MakeRead] on that message twice. *)
Lemma fetch_two_sections_marks_twice :
  nonPeekCount twoSections = 2%nat
  /\ markReadCalls (run (Fetch sampleEnv (OfSeqSet [mkRange 1 1]) twoSections))
     = [100; 100].
Proof. split; vm_compute; reflexivity. Qed.

(** C3 (counterexample).  A message with a plain-text body and no
    attachment gets a [mixed] multipart whose only child is the
    alternative part, where the specification has the alternative part
    stand alone. *)
Lemma body_structure_mixed_without_attachments :
  parsemail.Attachments parsedHi = []
  /\ buildBodyStructure parsedHi false
     = MultiPart "mixed"
         [MultiPart "alternative" [SinglePart (bsTextPlain 5 1)] (Some EmptyMultiPartExt)]
         None
  /\ bodyStructureAsSpecified (bsAlternative (Some (bsTextPlain 5 1)) None) false []
     = MultiPart "alternative" [SinglePart (bsTextPlain 5 1)] (Some EmptyMultiPartExt).
Proof. repeat split; vm_compute; reflexivity. Qed.

(** C3 (amended).  For every parsed message, with or without
    attachments, the body structure is a [mixed] multipart whose first
    child is the alternative part and whose other children are the parts
    of the attachments, in order; with zero attachments the alternative
    part is its only child. *)
Theorem body_structure_always_mixed (traEmail : parsemail.Email) (extended : bool) :
  exists text html,
    buildBodyStructure traEmail extended
    = MultiPart "mixed"
        (bsAlternative text html
           :: List.map attachmentPart (parsemail.Attachments traEmail))
        (if extended then Some EmptyMultiPartExt else None).
Proof.
  unfold buildBodyStructure. cbv zeta. do 2 eexists.
  unfold bsMixedWithAttachments. rewrite fold_append_map. reflexivity.
Qed.

(** C4 (counterexample).  On a message from "A" <a@b.com>, the header
    block of a request naming the ten recognised fields has a [Sender]
    line, the header block of a request naming no field has none. *)
Lemma header_default_omits_sender :
  strings_go.Contains
    (headerBlock sampleEnv messageHi parsedHi (BuildBytes sampleEnv parsedHi)
                 (headerSectionOf recognizedHeaderFields))
    "Sender: " = true
  /\ strings_go.Contains
       (headerBlock sampleEnv messageHi parsedHi (BuildBytes sampleEnv parsedHi)
                    (headerSectionOf []))
       "Sender: " = false.
Proof. split; vm_compute; reflexivity. Qed.

(** C4 (amended).  For every message, a header fetch that names no field
    emits the seven fields date, subject, from, to, cc, message-id and
    content-type, in that order and each under its presence rule, and no
    other (neither sender, reply-to nor bcc), followed by a blank line;
    it is the block of a request that names those seven fields. *)
Theorem header_default_is_seven_fields
    (env : Collaborators) (email : response.EmailResponseData)
    (traEmail : parsemail.Email) (emailContent : string)
    (part : list Z) (notFields : list string) (peek : bool) :
  headerBlock env email traEmail emailContent
              (mkSection PartSpecifierHeader part [] notFields peek)
  = headerField env email traEmail emailContent "date"
    +:+ headerField env email traEmail emailContent "subject"
    +:+ headerField env email traEmail emailContent "from"
    +:+ headerField env email traEmail emailContent "to"
    +:+ headerField env email traEmail emailContent "cc"
    +:+ headerField env email traEmail emailContent "message-id"
    +:+ headerField env email traEmail emailContent "content-type"
    +:+ CRLF
  /\ headerBlock env email traEmail emailContent
                 (mkSection PartSpecifierHeader part [] notFields peek)
     = headerBlock env email traEmail emailContent
         (mkSection PartSpecifierHeader part
            ["date"; "subject"; "from"; "to"; "cc"; "message-id"; "content-type"]
            notFields peek).
Proof.
  split; [|reflexivity].
  unfold headerBlock.
  cbn [HeaderFields len_is_zero defaultHeaderFields fold_left].
  change ("" +:+ headerField env email traEmail emailContent "date")
    with (headerField env email traEmail emailContent "date").
  now rewrite !string_app_assoc.
Qed.

End fetch_claims.

(* ===================================================================== *)
(** ** Further properties of the criteria evaluator                       *)
(* ===================================================================== *)

Module search_coverage_facts.

Import imap list_search search_spec search_facts or_facts coverage_spec.

Lemma List_filter_filter {A} (f g : A -> bool) (l : list A) :
  List.filter f (List.filter g l) = List.filter (fun x => g x && f x) l.
Proof.
  induction l as [|x l IH]; simpl; [reflexivity|].
  destruct (g x); simpl; [destruct (f x); now rewrite IH | exact IH].
Qed.

Lemma List_filter_all {A} (f : A -> bool) (l : list A) :
  (forall x, In x l -> f x = true) -> List.filter f l = l.
Proof.
  induction l as [|x l IH]; simpl; intros H; [reflexivity|].
  rewrite (H x) by now left. f_equal. apply IH. intros y Hy. apply H. now right.
Qed.

(** A pass guarded by [len(xs) > 0]. *)
Lemma guarded_pass {A B} (xs : list B) (p : A -> bool) (l : list A) :
  (if len_positive xs then rangeAppend p l else l)
  = List.filter (fun a => len_is_zero xs || p a) l.
Proof.
  destruct xs; simpl.
  - symmetry. now apply List_filter_all.
  - apply rangeAppend_filter.
Qed.

Lemma flags_pass (l : list UserEmailUIDData) (flags notFlags : list Flag) :
  (if len_positive flags || len_positive notFlags
   then filterByFlags l flags notFlags else l)
  = List.filter
      (fun item => forallb (fun flag => hasFlag item flag) flags
                   && forallb (fun flag => negb (hasFlag item flag)) notFlags)
      l.
Proof.
  assert (Hf : filterByFlags l flags notFlags
               = List.filter
                   (fun item => forallb (fun flag => hasFlag item flag) flags
                                && forallb (fun flag => negb (hasFlag item flag)) notFlags)
                   l).
  { unfold filterByFlags. rewrite rangeAppend_filter. apply List.filter_ext.
    intros item. cbv zeta. now destruct (forallb _ flags). }
  destruct flags, notFlags; simpl; try exact Hf.
  symmetry. now apply List_filter_all.
Qed.

Lemma not_pass (srch : SearchCriteria -> list UserEmailUIDData * error)
    (nots : list SearchCriteria) (l : list UserEmailUIDData) :
  fold_left (fun baseList notCriteria => applyNotCriteria srch baseList notCriteria) nots l
  = List.filter
      (fun item => forallb (fun n => negb (hasUID (ID item) (fst (srch n)))) nots) l.
Proof.
  revert l. induction nots as [|n nots IH]; intros l; simpl.
  - symmetry. now apply List_filter_all.
  - rewrite IH, applyNotCriteria_filter. apply List_filter_filter.
Qed.

Lemma guarded_not_pass (srch : SearchCriteria -> list UserEmailUIDData * error)
    (nots : list SearchCriteria) (l : list UserEmailUIDData) :
  (if len_positive nots
   then fold_left (fun baseList notCriteria => applyNotCriteria srch baseList notCriteria)
                  nots l
   else l)
  = List.filter
      (fun item => forallb (fun n => negb (hasUID (ID item) (fst (srch n)))) nots) l.
Proof.
  destruct (len_positive nots) eqn:H; [apply not_pass|].
  apply len_positive_false in H. subst. symmetry. now apply List_filter_all.
Qed.

Lemma or_pass (srch : SearchCriteria -> list UserEmailUIDData * error)
    (pairs : list (SearchCriteria * SearchCriteria)) (l : list UserEmailUIDData) :
  (if len_positive pairs then applyOrCriteria srch l pairs else l)
  = List.filter (fun item => len_is_zero pairs || existsb (matchesPair srch item) pairs) l.
Proof.
  destruct pairs as [|p pairs].
  - simpl. symmetry. now apply List_filter_all.
  - rewrite applyOrCriteria_union by reflexivity. reflexivity.
Qed.

Lemma withoutOr_same (c : SearchCriteria) : Or c = [] -> withoutOr c = c.
Proof. destruct c; simpl; intros ->; reflexivity. Qed.

Lemma insert_rows_lookup (emails : list models.Email) (m : gmap Z models.Email)
    (k : Z) (e : models.Email) :
  fold_left (fun m e => <[models.Id e := e]> m) emails m !! k = Some e ->
  (In e emails /\ models.Id e = k) \/ m !! k = Some e.
Proof.
  revert m. induction emails as [|x emails IH]; intros m; simpl; [now right|].
  intros H. apply IH in H as [[Hin Hid]|H]; [left; auto|].
  rewrite lookup_insert in H. destruct (decide (models.Id x = k)) as [Heq|Hne].
  - left. inversion H; subst. auto.
  - now right.
Qed.

Lemma filterByFlags_filter (l : list UserEmailUIDData) (flags notFlags : list Flag) :
  filterByFlags l flags notFlags
  = List.filter
      (fun item => forallb (fun flag => hasFlag item flag) flags
                   && forallb (fun flag => negb (hasFlag item flag)) notFlags)
      l.
Proof.
  unfold filterByFlags. rewrite rangeAppend_filter. apply List.filter_ext.
  intros item. cbv zeta. now destruct (forallb _ flags).
Qed.

Lemma untracked_flag_unset (item : UserEmailUIDData) (flag : Flag) :
  trackedFlag flag = false -> hasFlag item flag = false.
Proof.
  unfold trackedFlag, hasFlag. intros H.
  apply orb_false_iff in H as [H Hjunk]. apply orb_false_iff in H as [H Hdraft].
  apply orb_false_iff in H as [Hseen Hdel].
  rewrite Hseen, Hdel, Hdraft, Hjunk. now destruct (_ || _).
Qed.

Lemma lowerByte_idempotent (c : ascii) :
  strings_go.lowerByte (strings_go.lowerByte c) = strings_go.lowerByte c.
Proof. destruct c as [[] [] [] [] [] [] [] []]; reflexivity. Qed.

Lemma ToLower_idempotent (s : string) :
  strings_go.ToLower (strings_go.ToLower s) = strings_go.ToLower s.
Proof.
  induction s as [|c s IH]; simpl; [reflexivity|].
  now rewrite lowerByte_idempotent, IH.
Qed.

(** [matchesText] hands [matchesBody] a pattern it has already lowered;
    lowering it again changes nothing. *)
Lemma matchesBody_lowered (email : models.Email) (pattern : string) :
  matchesBody email (strings_go.ToLower pattern) = matchesBody email pattern.
Proof. unfold matchesBody. cbv zeta. now rewrite ToLower_idempotent. Qed.

Section WithStore.

Variable UIDSet_Contains : UIDSet -> Z -> bool.
Variable SeqSet_Contains : SeqSet -> Z -> bool.
Variable mailbox : list UserEmailUIDData.
Variable Find : list Z -> FindResult.

Abbreviation searchAt := (SearchEmailsAt UIDSet_Contains SeqSet_Contains mailbox Find).

(** Whenever the content pass of a node leaves the mailbox's candidates
    alone, the node is a filter of the mailbox by [keeps]. *)
Lemma searchAt_filter_keeps (c : SearchCriteria) :
  (forall l, (if needsEmailData c then filterWithEmailData Find l c else l) = l) ->
  fst (searchAt c)
  = List.filter (keeps UIDSet_Contains SeqSet_Contains searchAt c) mailbox.
Proof.
  intros Hdata. rewrite SearchEmailsAt_unfold. cbv zeta.
  destruct (len_is_zero mailbox) eqn:Hmb.
  { apply len_is_zero_nil in Hmb. now rewrite Hmb. }
  destruct (isEmptyCriteria c) eqn:Hemp.
  - simpl. symmetry. apply List_filter_all. intros item _.
    apply isEmptyCriteria_fieldsAllZero in Hemp.
    destruct Hemp as (Hu & Hq & _ & _ & _ & _ & _ & _ & _ & Hf & Hnf & _ & _ & Hn & Ho).
    unfold keeps. now rewrite Hu, Hq, Hf, Hnf, Hn, Ho.
  - rewrite Hdata. unfold filterByUIDSets, filterBySeqNumSets.
    rewrite or_pass, guarded_not_pass, flags_pass, !guarded_pass. simpl.
    rewrite !List_filter_filter. apply List.filter_ext. intros item.
    unfold keeps. rewrite <- !andb_assoc. reflexivity.
Qed.

Lemma keeps_withoutContent srch c item :
  keeps UIDSet_Contains SeqSet_Contains srch (withoutContent c) item
  = keeps UIDSet_Contains SeqSet_Contains srch c item.
Proof. destruct c; reflexivity. Qed.

End WithStore.

End search_coverage_facts.

Module search_coverage.

Import imap list_search search_spec search_facts or_facts coverage_spec.
Import search_coverage_facts samples coverage_samples.

Section WithStore.

Variable UIDSet_Contains : UIDSet -> Z -> bool.
Variable SeqSet_Contains : SeqSet -> Z -> bool.
Variable mailbox : list UserEmailUIDData.
Variable Find : list Z -> FindResult.

Abbreviation searchAt := (SearchEmailsAt UIDSet_Contains SeqSet_Contains mailbox Find).
Abbreviation search := (SearchEmails UIDSet_Contains SeqSet_Contains mailbox Find).

(** X1.  The fields of one node are AND-ed.  For a node without content
    predicates (no date, header, body, text or size field), the result is
    the mailbox, in order, restricted to the items that every present
    field accepts: some UID set contains the UID, some sequence set
    contains the sequence number, every required flag is set and no
    excluded flag is, no NOT child matches the UID, and some OR pair
    does. *)
Theorem node_fields_are_conjoined (c : SearchCriteria) :
  needsEmailData c = false ->
  fst (search (Some c))
  = List.filter
      (keeps UIDSet_Contains SeqSet_Contains (fun c' => search (Some c')) c)
      mailbox.
Proof.
  intros Hdata. simpl. apply searchAt_filter_keeps. intros l. now rewrite Hdata.
Qed.

(** X2.  OR pairs only narrow: the result of a node is a subsequence of
    the result of the same node without its OR pairs. *)
Theorem or_pairs_only_narrow (c : SearchCriteria) :
  fst (search (Some c)) `sublist_of` fst (search (Some (withoutOr c))).
Proof.
  destruct (len_positive (Or c)) eqn:Hpos.
  - change (fst (searchAt c) `sublist_of` fst (searchAt (withoutOr c))).
    rewrite SearchEmailsAt_or_last by exact Hpos. apply applyOrCriteria_sublist.
  - apply len_positive_false in Hpos. now rewrite (withoutOr_same c Hpos).
Qed.

(** X3.  With a store whose every lookup fails, the dates, headers, body,
    text and size fields of a node have no effect at all: the search
    returns what the node without them returns. *)
Theorem failing_store_drops_content_fields (c : SearchCriteria) :
  (forall ids, exists err, Find ids = FindErr err) ->
  fst (search (Some c)) = fst (search (Some (withoutContent c))).
Proof.
  intros Hfail.
  change (fst (searchAt c) = fst (searchAt (withoutContent c))).
  rewrite (searchAt_filter_keeps _ _ _ _ c), (searchAt_filter_keeps _ _ _ _ (withoutContent c)).
  - apply List.filter_ext. intros item. symmetry. apply keeps_withoutContent.
  - intros l. destruct c; reflexivity.
  - intros l. destruct (needsEmailData c); [|reflexivity].
    unfold filterWithEmailData. destruct (len_is_zero l); [reflexivity|].
    destruct (Hfail (fold_left (fun ids item => ids ++ [EmailID item]) l [])) as [err ->].
    reflexivity.
Qed.

(** X4.  When the lookup succeeds, a candidate survives the content pass
    only if the store returned a row with its email id and that row
    matches the criteria: a candidate whose row is missing is dropped. *)
Theorem content_pass_needs_a_row (l : list UserEmailUIDData) (c : SearchCriteria)
    (emails : list models.Email) (item : UserEmailUIDData) :
  Find (List.map EmailID l) = FindOk emails ->
  In item (filterWithEmailData Find l c) ->
  In item l
  /\ exists email,
       In email emails /\ models.Id email = EmailID item
       /\ matchesEmailCriteria email c = true.
Proof.
  intros Hfind. unfold filterWithEmailData.
  destruct (len_is_zero l) eqn:Hl.
  { apply len_is_zero_nil in Hl. subst. intros []. }
  rewrite fold_append_map. simpl. rewrite Hfind, rangeAppend_filter.
  rewrite List.filter_In. intros [Hin Hkeep]. split; [exact Hin|].
  destruct (_ !! EmailID item) as [email|] eqn:Hrow; [|discriminate].
  apply insert_rows_lookup in Hrow as [[He Hid]|Hrow].
  - exists email. auto.
  - rewrite lookup_empty in Hrow. discriminate.
Qed.

End WithStore.

Lemma node_fields_are_conjoined_witness :
  needsEmailData uidRangeSeen = false
  /\ fst (SearchEmails inRanges inRanges mailbox3 failingStore (Some uidRangeSeen))
     = List.filter
         (keeps inRanges inRanges
            (fun c' => SearchEmails inRanges inRanges mailbox3 failingStore (Some c'))
            uidRangeSeen)
         mailbox3.
Proof.
  split; [reflexivity|].
  apply (node_fields_are_conjoined inRanges inRanges mailbox3 failingStore uidRangeSeen).
  reflexivity.
Defined.

Lemma failing_store_drops_content_fields_witness :
  (forall ids, exists err, failingStore ids = FindErr err)
  /\ fst (SearchEmails inRanges inRanges mailbox3 failingStore (Some sinceSeen))
     = fst (SearchEmails inRanges inRanges mailbox3 failingStore
              (Some (withoutContent sinceSeen))).
Proof.
  assert (H : forall ids, exists err, failingStore ids = FindErr err)
    by (intros ids; eexists; reflexivity).
  split; [exact H|].
  exact (failing_store_drops_content_fields inRanges inRanges mailbox3 failingStore
           sinceSeen H).
Defined.

Lemma content_pass_needs_a_row_witness :
  storeInvoice (List.map EmailID [m10]) = FindOk [emailInvoice]
  /\ In m10 (filterWithEmailData storeInvoice [m10] (largerOnly 1000))
  /\ exists email,
       In email [emailInvoice] /\ models.Id email = EmailID m10
       /\ matchesEmailCriteria email (largerOnly 1000) = true.
Proof.
  assert (Hin : In m10 (filterWithEmailData storeInvoice [m10] (largerOnly 1000)))
    by (vm_compute; left; reflexivity).
  split; [reflexivity|]. split; [exact Hin|].
  exact (proj2 (content_pass_needs_a_row storeInvoice [m10] (largerOnly 1000)
                  [emailInvoice] m10 eq_refl Hin)).
Defined.

(** X5.  The flag pass keeps exactly the items that have every required
    flag and none of the excluded ones. *)
Theorem flag_pass_membership (l : list UserEmailUIDData) (flags notFlags : list Flag)
    (item : UserEmailUIDData) :
  In item (filterByFlags l flags notFlags)
  <-> In item l
      /\ (forall flag, In flag flags -> hasFlag item flag = true)
      /\ (forall flag, In flag notFlags -> hasFlag item flag = false).
Proof.
  rewrite filterByFlags_filter, List.filter_In, andb_true_iff, !forallb_forall.
  split; intros (Hin & Hreq & Hex); repeat split; auto; intros flag Hf.
  - apply negb_true_iff. now apply Hex.
  - apply negb_true_iff. now apply Hex.
Qed.

(** X6.  A flag outside (Seen, Deleted, Draft, Junk), such as Answered or
    Flagged, is never set: requiring it empties the result, excluding it
    removes nothing. *)
Theorem untracked_flag_never_matches (l : list UserEmailUIDData)
    (flags notFlags : list Flag) (flag : Flag) :
  trackedFlag flag = false ->
  (In flag flags -> filterByFlags l flags notFlags = [])
  /\ filterByFlags l flags (flag :: notFlags) = filterByFlags l flags notFlags.
Proof.
  intros Hun. split.
  - intros Hin. rewrite filterByFlags_filter.
    induction l as [|item l IH]; [reflexivity|]. simpl.
    assert (Hreq : forallb (fun f => hasFlag item f) flags = false).
    { apply not_true_is_false. rewrite forallb_forall. intros H.
      specialize (H flag Hin). rewrite untracked_flag_unset in H by exact Hun.
      discriminate. }
    rewrite Hreq. exact IH.
  - rewrite !filterByFlags_filter. apply List.filter_ext. intros item. simpl.
    now rewrite untracked_flag_unset by exact Hun.
Qed.

Lemma untracked_flag_never_matches_witness :
  trackedFlag FlagAnswered = false
  /\ filterByFlags mailbox3 [FlagSeen] [FlagAnswered] = filterByFlags mailbox3 [FlagSeen] [].
Proof.
  split; [reflexivity|].
  exact (proj2 (untracked_flag_never_matches mailbox3 [FlagSeen] [] FlagAnswered eq_refl)).
Defined.

(** X7.  TEXT covers BODY and five of the header keys, for keys, patterns
    and stored rows made of ASCII bytes: a message that matches [BODY v],
    or [HEADER key v] for a key among subject, from, to, cc and bcc (in
    any letter case), matches [TEXT v]. *)
Theorem text_covers_body_and_headers (email : models.Email) (key value : string) :
  isASCII key = true -> isASCII value = true -> asciiEmail email = true ->
  matchesBody email value = true
  \/ (In (strings_go.ToLower key) textSearchedKeys
      /\ matchesHeader email key value = true) ->
  matchesText email value = true.
Proof.
  unfold matchesText. cbv zeta. rewrite matchesBody_lowered.
  assert (Hdone : forall b1 b2 b3 b4 b5 b6 b7 : bool,
            b1 || b2 || b3 || b4 || b5 || b6 || b7 = true ->
            (if b1 then true else if b2 then true else if b3 then true
             else if b4 then true else if b5 then true else if b6 then true else b7)
            = true)
    by (intros [] [] [] [] [] [] []; simpl; congruence).
  intros _ _ _ [Hbody | [Hkey Hhdr]]; apply Hdone.
  - rewrite Hbody. apply orb_true_r.
  - unfold matchesHeader in Hhdr. cbv zeta in Hhdr.
    unfold textSearchedKeys in Hkey. simpl in Hkey.
    destruct Hkey as [Hk|[Hk|[Hk|[Hk|[Hk|[]]]]]]; rewrite <- Hk in Hhdr; simpl in Hhdr.
    + rewrite Hhdr. reflexivity.
    + apply orb_true_iff in Hhdr as [Hh | Hh]; rewrite Hh; rewrite ?orb_true_r; reflexivity.
    + rewrite Hhdr. rewrite ?orb_true_r. reflexivity.
    + rewrite Hhdr. rewrite ?orb_true_r. reflexivity.
    + rewrite Hhdr. rewrite ?orb_true_r. reflexivity.
Qed.

Lemma text_covers_body_and_headers_witness :
  isASCII "Subject" = true /\ isASCII "INVOICE" = true /\ asciiEmail emailInvoice = true
  /\ (matchesBody emailInvoice "INVOICE" = true
      \/ (In (strings_go.ToLower "Subject") textSearchedKeys
          /\ matchesHeader emailInvoice "Subject" "INVOICE" = true))
  /\ matchesText emailInvoice "INVOICE" = true.
Proof.
  assert (H : matchesBody emailInvoice "INVOICE" = true
              \/ (In (strings_go.ToLower "Subject") textSearchedKeys
                  /\ matchesHeader emailInvoice "Subject" "INVOICE" = true)).
  { right. split; [left; reflexivity | reflexivity]. }
  split; [reflexivity|]. split; [reflexivity|]. split; [reflexivity|].
  split; [exact H|].
  exact (text_covers_body_and_headers emailInvoice "Subject" "INVOICE"
           eq_refl eq_refl eq_refl H).
Defined.

(** X8.  Date filters work on calendar days read in the location of the
    criterion: a message passes [SINCE d] exactly when the day on which
    its stored instant falls in the criterion's location is the day of [d]
    or a later one, and passes [BEFORE d] exactly when that day is an
    earlier one. *)
Theorem date_filters_use_criterion_location (email : models.Email) (d : time.Time) :
  0 <= time.nsec (models.CreateTime email) ->
  time.IsZero d = false ->
  matchesEmailCriteria email (sinceOnly d)
  = (time.civilDay d <=? time.civilDayIn (time.offset d) (models.CreateTime email))
  /\ matchesEmailCriteria email (beforeOnly d)
     = (time.civilDayIn (time.offset d) (models.CreateTime email) <? time.civilDay d).
Proof.
  intros Hns Hz. unfold matchesEmailCriteria, sinceOnly, beforeOnly; simpl.
  rewrite Hz; simpl. rewrite date_facts.Before_truncateToDate by exact Hns.
  rewrite Z.leb_antisym. split; now destruct (_ <? _).
Qed.

Lemma date_filters_use_criterion_location_witness :
  0 <= time.nsec (models.CreateTime emailEast)
  /\ time.IsZero dateJan2 = false
  /\ matchesEmailCriteria emailEast (sinceOnly dateJan2)
     = (time.civilDay dateJan2
        <=? time.civilDayIn (time.offset dateJan2) (models.CreateTime emailEast)).
Proof.
  assert (Hns : 0 <= time.nsec (models.CreateTime emailEast)) by (simpl; lia).
  split; [exact Hns|]. split; [reflexivity|].
  exact (proj1 (date_filters_use_criterion_location emailEast dateJan2 Hns eq_refl)).
Defined.

(** X9.  Size bounds are strict, and a bound that is not positive is no
    bound: [LARGER n] with [n > 0] keeps the messages of more than [n]
    bytes, [SMALLER n] with [n > 0] those of fewer than [n] bytes, so a
    message of exactly [n] bytes passes neither; with [n <= 0] either
    keeps every message. *)
Theorem size_bounds_are_strict (email : models.Email) (n : Z) :
  matchesEmailCriteria email (largerOnly n)
  = (if 0 <? n then n <? models.Size email else true)
  /\ matchesEmailCriteria email (smallerOnly n)
     = (if 0 <? n then models.Size email <? n else true).
Proof.
  unfold matchesEmailCriteria, largerOnly, smallerOnly; simpl.
  destruct (0 <? n); simpl.
  - rewrite Z.geb_leb, !Z.leb_antisym. split; now destruct (_ <? _).
  - split; reflexivity.
Qed.

(** The chain of early returns of [matchesEmailCriteria], as one
    boolean conjunction. *)
Lemma matchesEmailCriteria_andb (email : models.Email) (c : SearchCriteria) :
  matchesEmailCriteria email c
  = negb (negb (time.IsZero (Since c))
          && time.Before (models.CreateTime email) (truncateToDate (Since c)))
    && (negb (negb (time.IsZero (Before c))
              && negb (time.Before (models.CreateTime email) (truncateToDate (Before c))))
    && (negb (negb (time.IsZero (SentSince c))
              && time.Before (models.SendDate email) (truncateToDate (SentSince c)))
    && (negb (negb (time.IsZero (SentBefore c))
              && negb (time.Before (models.SendDate email)
                                   (truncateToDate (SentBefore c))))
    && (negb ((0 <? Larger c) && (models.Size email <=? Larger c))
    && (negb ((0 <? Smaller c) && (models.Size email >=? Smaller c))
    && (forallb (fun hf => matchesHeader email (Key hf) (Value hf)) (Header c)
    && (forallb (fun pattern => matchesBody email pattern) (Body c)
    && forallb (fun pattern => matchesText email pattern) (imap.Text c)))))))).
Proof.
  unfold matchesEmailCriteria.
  repeat match goal with
         | |- (if ?g then false else _) = _ => destruct g; [reflexivity|]; cbn [negb andb]
         end.
  destruct (forallb _ (Header c)), (forallb _ (Body c)), (forallb _ (imap.Text c));
    reflexivity.
Qed.

Lemma guard_absent_or_false (z b : bool) :
  negb (negb z && b) = true <-> (z = false -> b = false).
Proof. destruct z, b; simpl; intuition congruence. Qed.

Lemma guard_absent_or_true (z b : bool) :
  negb (negb z && negb b) = true <-> (z = false -> b = true).
Proof. destruct z, b; simpl; intuition congruence. Qed.

Lemma guard_larger (bound size : Z) :
  negb ((0 <? bound) && (size <=? bound)) = true <-> (0 < bound -> bound < size).
Proof.
  destruct (Z.ltb_spec 0 bound), (Z.leb_spec size bound); simpl;
    split; intros; try congruence; try lia.
Qed.

Lemma guard_smaller (bound size : Z) :
  negb ((0 <? bound) && (size >=? bound)) = true <-> (0 < bound -> size < bound).
Proof.
  rewrite Z.geb_leb.
  destruct (Z.ltb_spec 0 bound), (Z.leb_spec bound size); simpl;
    split; intros; try congruence; try lia.
Qed.

(** X10.  The content pass is one conjunction: a stored row matches a
    node exactly when it passes every date, size, header, body and text
    predicate the node carries, a zero date and a non-positive size bound
    counting as absent. *)
Theorem content_predicates_are_conjoined (email : models.Email) (c : SearchCriteria) :
  matchesEmailCriteria email c = true
  <-> (time.IsZero (Since c) = false ->
       time.Before (models.CreateTime email) (truncateToDate (Since c)) = false)
      /\ (time.IsZero (Before c) = false ->
          time.Before (models.CreateTime email) (truncateToDate (Before c)) = true)
      /\ (time.IsZero (SentSince c) = false ->
          time.Before (models.SendDate email) (truncateToDate (SentSince c)) = false)
      /\ (time.IsZero (SentBefore c) = false ->
          time.Before (models.SendDate email) (truncateToDate (SentBefore c)) = true)
      /\ (0 < Larger c -> Larger c < models.Size email)
      /\ (0 < Smaller c -> models.Size email < Smaller c)
      /\ (forall hf, In hf (Header c) -> matchesHeader email (Key hf) (Value hf) = true)
      /\ (forall pattern, In pattern (Body c) -> matchesBody email pattern = true)
      /\ (forall pattern, In pattern (imap.Text c) -> matchesText email pattern = true).
Proof.
  rewrite matchesEmailCriteria_andb, !andb_true_iff.
  rewrite !guard_absent_or_true, !guard_absent_or_false, guard_larger, guard_smaller.
  rewrite !forallb_forall. reflexivity.
Qed.

End search_coverage.

(* ===================================================================== *)
(** ** Properties of the SEARCH handler                                   *)
(* ===================================================================== *)

Module handler_coverage.

Import imap list_search search_spec search_facts imap_server coverage_spec.
Import samples coverage_samples.

Lemma scanMin_le_start (key : UserEmailUIDData -> Z) (l : list UserEmailUIDData) (start : Z) :
  scanMin key l start <= start.
Proof.
  unfold scanMin. revert start. induction l as [|x l IH]; intros start; simpl; [lia|].
  destruct (Z.ltb_spec (key x) start); [specialize (IH (key x)); lia | apply IH].
Qed.

Lemma scanMin_lower (key : UserEmailUIDData -> Z) (l : list UserEmailUIDData) (start : Z)
    (d : UserEmailUIDData) :
  In d l -> scanMin key l start <= key d.
Proof.
  unfold scanMin. revert start. induction l as [|x l IH]; intros start; simpl; [tauto|].
  intros [->|Hin]; [|now apply IH].
  pose proof (scanMin_le_start key l (if key d <? start then key d else start)) as H.
  unfold scanMin in H. destruct (Z.ltb_spec (key d) start); lia.
Qed.

Lemma scanMin_attained (key : UserEmailUIDData -> Z) (l : list UserEmailUIDData) (start : Z) :
  scanMin key l start = start \/ exists d, In d l /\ scanMin key l start = key d.
Proof.
  unfold scanMin. revert start. induction l as [|x l IH]; intros start; simpl; [now left|].
  destruct (IH (if key x <? start then key x else start)) as [H|(d & Hd & H)].
  - rewrite H. destruct (key x <? start); [right; exists x; auto | now left].
  - right. exists d. auto.
Qed.

Lemma scanMax_ge_start (key : UserEmailUIDData -> Z) (l : list UserEmailUIDData) (start : Z) :
  start <= scanMax key l start.
Proof.
  unfold scanMax. revert start. induction l as [|x l IH]; intros start; simpl; [lia|].
  destruct (Z.ltb_spec start (key x)); [specialize (IH (key x)); lia | apply IH].
Qed.

Lemma scanMax_upper (key : UserEmailUIDData -> Z) (l : list UserEmailUIDData) (start : Z)
    (d : UserEmailUIDData) :
  In d l -> key d <= scanMax key l start.
Proof.
  unfold scanMax. revert start. induction l as [|x l IH]; intros start; simpl; [tauto|].
  intros [->|Hin]; [|now apply IH].
  pose proof (scanMax_ge_start key l (if start <? key d then key d else start)) as H.
  unfold scanMax in H. destruct (Z.ltb_spec start (key d)); lia.
Qed.

Lemma scanMax_attained (key : UserEmailUIDData -> Z) (l : list UserEmailUIDData) (start : Z) :
  scanMax key l start = start \/ exists d, In d l /\ scanMax key l start = key d.
Proof.
  unfold scanMax. revert start. induction l as [|x l IH]; intros start; simpl; [now left|].
  destruct (IH (if start <? key x then key x else start)) as [H|(d & Hd & H)].
  - rewrite H. destruct (start <? key x); [right; exists x; auto | now left].
  - right. exists d. auto.
Qed.

(** [Search], once the evaluator's nil error is known. *)
Lemma Search_data (env : Collaborators)
    (UIDSet_Contains : UIDSet -> Z -> bool) (SeqSet_Contains : SeqSet -> Z -> bool)
    (mailbox : list UserEmailUIDData) (Find : list Z -> FindResult)
    (kind : NumKind) (criteria : option SearchCriteria) (options : option SearchOptions) :
  Search env UIDSet_Contains SeqSet_Contains mailbox Find kind criteria options
  = (Some (searchData
             (match kind with NumKindSeq => false | NumKindUID => true end)
             (reportedNumber env kind) (aggregateKey env kind)
             (fst (SearchEmails UIDSet_Contains SeqSet_Contains mailbox Find criteria))
             options),
     nil_error).
Proof.
  unfold Search.
  pose proof (SearchEmails_nil_error UIDSet_Contains SeqSet_Contains mailbox Find criteria)
    as Hnil.
  destruct (SearchEmails _ _ _ _ criteria) as [retList e]; simpl in *; subst e.
  unfold nil_error. now destruct kind.
Qed.

(** X11.  SEARCH reports every match once, in mailbox order: the result
    set holds one singleton range per message returned by the evaluator,
    sequence numbers for a plain SEARCH and UIDs for UID SEARCH, the count
    is the number of matches, and the UID marker follows the command
    variant. *)
Theorem search_reports_every_match (env : Collaborators)
    (UIDSet_Contains : UIDSet -> Z -> bool) (SeqSet_Contains : SeqSet -> Z -> bool)
    (mailbox : list UserEmailUIDData) (Find : list Z -> FindResult)
    (kind : NumKind) (criteria : option SearchCriteria) (options : option SearchOptions) :
  exists data,
    Search env UIDSet_Contains SeqSet_Contains mailbox Find kind criteria options
    = (Some data, nil_error)
    /\ All data
       = List.map
           (fun d => mkRange (reportedNumber env kind d) (reportedNumber env kind d))
           (fst (SearchEmails UIDSet_Contains SeqSet_Contains mailbox Find criteria))
    /\ Count data
       = uint32 (Z.of_nat (length
                   (fst (SearchEmails UIDSet_Contains SeqSet_Contains mailbox Find criteria))))
    /\ SDUID data = match kind with NumKindSeq => false | NumKindUID => true end.
Proof.
  eexists. split; [apply Search_data|]. simpl.
  split; [|split; reflexivity].
  now rewrite fold_append_map.
Qed.

(** X12.  The aggregates of an extended SEARCH are the extremes of the
    matches: when the minimum is asked for and there is a match, [Min] is
    the number of some match and no match has a smaller one, and likewise
    [Max] is the largest; an aggregate that is not asked for, or asked for
    on an empty result, stays 0. *)
Theorem search_min_max_are_extremes (env : Collaborators)
    (UIDSet_Contains : UIDSet -> Z -> bool) (SeqSet_Contains : SeqSet -> Z -> bool)
    (mailbox : list UserEmailUIDData) (Find : list Z -> FindResult)
    (kind : NumKind) (criteria : option SearchCriteria) (o : SearchOptions)
    (data : SearchData) :
  Search env UIDSet_Contains SeqSet_Contains mailbox Find kind criteria (Some o)
  = (Some data, nil_error) ->
  let retList := fst (SearchEmails UIDSet_Contains SeqSet_Contains mailbox Find criteria) in
  (if ReturnMin o && negb (len_is_zero retList)
   then (forall d, In d retList -> Min data <= aggregateKey env kind d)
        /\ (exists d, In d retList /\ Min data = aggregateKey env kind d)
   else Min data = 0)
  /\ (if ReturnMax o && negb (len_is_zero retList)
      then (forall d, In d retList -> aggregateKey env kind d <= Max data)
           /\ (exists d, In d retList /\ Max data = aggregateKey env kind d)
      else Max data = 0).
Proof.
  rewrite Search_data. intros H retList. injection H as <-. fold retList.
  unfold searchData; simpl.
  destruct retList as [|first rest] eqn:Hret.
  - rewrite !andb_false_r. split; reflexivity.
  - simpl negb. rewrite !andb_true_r. split.
    + destruct (ReturnMin o); [|reflexivity]. split.
      * intros d Hd. now apply scanMin_lower.
      * destruct (scanMin_attained (aggregateKey env kind) (first :: rest)
                    (aggregateKey env kind first)) as [H|H].
        -- exists first. split; [now left | exact H].
        -- exact H.
    + destruct (ReturnMax o); [|reflexivity]. split.
      * intros d Hd. now apply scanMax_upper.
      * destruct (scanMax_attained (aggregateKey env kind) (first :: rest)
                    (aggregateKey env kind first)) as [H|H].
        -- exists first. split; [now left | exact H].
        -- exact H.
Qed.

Lemma search_min_max_are_extremes_witness :
  Search sampleEnv inRanges inRanges mailbox3 failingStore NumKindUID None
         (Some bothAggregates)
  = (Some (mkSearchData [mkRange 10 10; mkRange 11 11; mkRange 12 12] true 10 12 3),
     nil_error)
  /\ (forall d, In d mailbox3 -> 10 <= aggregateKey sampleEnv NumKindUID d)
  /\ (forall d, In d mailbox3 -> aggregateKey sampleEnv NumKindUID d <= 12).
Proof.
  assert (H : Search sampleEnv inRanges inRanges mailbox3 failingStore NumKindUID None
                     (Some bothAggregates)
              = (Some (mkSearchData [mkRange 10 10; mkRange 11 11; mkRange 12 12]
                                    true 10 12 3),
                 nil_error)) by (vm_compute; reflexivity).
  split; [exact H|].
  pose proof (search_min_max_are_extremes sampleEnv inRanges inRanges mailbox3
                failingStore NumKindUID None bothAggregates _ H) as [Hmin Hmax].
  split; [exact (proj1 Hmin) | exact (proj1 Hmax)].
Defined.

End handler_coverage.

(* ===================================================================== *)
(** ** Further properties of the FETCH handler                            *)
(* ===================================================================== *)

Module string_facts.

Import imap_server.

Lemma substring_whole (s : string) : String.substring 0 (String.length s) s = s.
Proof. induction s as [|c s IH]; simpl; [reflexivity | now rewrite IH]. Qed.

Lemma slice_to_cons (d : ascii) (rest : string) (j : Z) :
  0 <= j ->
  strings_go.slice_to (String d rest) (j + 1) = String d (strings_go.slice_to rest j).
Proof.
  intros Hj. unfold strings_go.slice_to.
  replace (Z.to_nat (j + 1)) with (S (Z.to_nat j)) by lia. reflexivity.
Qed.

Lemma slice_from_cons (d : ascii) (rest : string) (j : Z) :
  0 <= j ->
  strings_go.slice_from (String d rest) (j + 1) = strings_go.slice_from rest j.
Proof.
  intros Hj. unfold strings_go.slice_from.
  replace (Z.to_nat (j + 1)) with (S (Z.to_nat j)) by lia. reflexivity.
Qed.

Lemma slice_to_zero (s : string) : strings_go.slice_to s 0 = "".
Proof. unfold strings_go.slice_to. now destruct s. Qed.

Lemma slice_from_zero (s : string) : strings_go.slice_from s 0 = s.
Proof.
  unfold strings_go.slice_from. simpl. rewrite Nat.sub_0_r. apply substring_whole.
Qed.

Lemma slice_from_one (d : ascii) (rest : string) :
  strings_go.slice_from (String d rest) 1 = rest.
Proof.
  change 1 with (0 + 1). rewrite slice_from_cons by lia. apply slice_from_zero.
Qed.

Lemma IndexByte_lower (s : string) (c : ascii) : -1 <= strings_go.IndexByte s c.
Proof.
  induction s as [|d rest IH]; cbn [strings_go.IndexByte]; [lia|].
  destruct (Ascii.eqb d c); [lia|]. cbv zeta.
  destruct (Z.ltb_spec (strings_go.IndexByte rest c) 0); lia.
Qed.

(** The first occurrence of [c] cuts [s] into what precedes it, free of
    [c], and what follows it. *)
Lemma IndexByte_split (s : string) (c : ascii) :
  0 <= strings_go.IndexByte s c ->
  strings_go.slice_to s (strings_go.IndexByte s c)
    +:+ String c (strings_go.slice_from s (strings_go.IndexByte s c + 1)) = s
  /\ strings_go.IndexByte (strings_go.slice_to s (strings_go.IndexByte s c)) c = -1.
Proof.
  induction s as [|d rest IH]; cbn [strings_go.IndexByte]; [lia|].
  destruct (Ascii.eqb_spec d c) as [->|Hne].
  - intros _. rewrite slice_to_zero. change (0 + 1) with 1.
    rewrite slice_from_one. split; reflexivity.
  - cbv zeta.
    destruct (Z.ltb_spec (strings_go.IndexByte rest c) 0) as [Hlt|Hge]; [lia|].
    intros _. destruct (IH Hge) as [Hsplit Hfree].
    rewrite slice_to_cons by exact Hge.
    rewrite slice_from_cons by lia.
    split.
    + change (String d (strings_go.slice_to rest (strings_go.IndexByte rest c)
                        +:+ String c (strings_go.slice_from rest
                                        (strings_go.IndexByte rest c + 1)))
              = String d rest).
      now rewrite Hsplit.
    + cbn [strings_go.IndexByte]. apply Ascii.eqb_neq in Hne. rewrite Hne, Hfree.
      reflexivity.
Qed.

Lemma LastIndexByte_lower (s : string) (c : ascii) : -1 <= LastIndexByte s c.
Proof.
  induction s as [|d rest IH]; cbn [LastIndexByte]; [lia|]. cbv zeta.
  destruct (Z.leb_spec 0 (LastIndexByte rest c)); [lia|].
  destruct (Ascii.eqb d c); lia.
Qed.

(** The last occurrence of [c] cuts [s] into what precedes it and what
    follows it, free of [c]. *)
Lemma LastIndexByte_split (s : string) (c : ascii) :
  0 <= LastIndexByte s c ->
  strings_go.slice_to s (LastIndexByte s c)
    +:+ String c (strings_go.slice_from s (LastIndexByte s c + 1)) = s
  /\ LastIndexByte (strings_go.slice_from s (LastIndexByte s c + 1)) c = -1.
Proof.
  induction s as [|d rest IH]; cbn [LastIndexByte]; [lia|]. cbv zeta.
  destruct (Z.leb_spec 0 (LastIndexByte rest c)) as [Hge|Hlt].
  - intros _. destruct (IH Hge) as [Hsplit Hfree].
    rewrite slice_to_cons by exact Hge.
    rewrite slice_from_cons by lia.
    split; [|exact Hfree].
    change (String d (strings_go.slice_to rest (LastIndexByte rest c)
                      +:+ String c (strings_go.slice_from rest (LastIndexByte rest c + 1)))
            = String d rest).
    now rewrite Hsplit.
  - destruct (Ascii.eqb_spec d c) as [->|Hne]; [|lia].
    intros _. rewrite slice_to_zero. change (0 + 1) with 1.
    rewrite slice_from_one. split; [reflexivity|].
    pose proof (LastIndexByte_lower rest c). lia.
Qed.

End string_facts.

Module fetch_coverage_facts.

Import imap imap_server fetch_spec fetch_facts coverage_spec string_facts.

Lemma fold_users_map_filter (users : list parsemail.User) (acc : list Address) :
  fold_left
    (fun addrs u =>
       if negb (String.eqb (parsemail.EmailAddress u) "")
       then addrs ++ [userToAddress u] else addrs)
    users acc
  = acc ++ List.map userToAddress (List.filter hasAddress users).
Proof.
  revert acc. induction users as [|u users IH]; intros acc; simpl.
  - now rewrite app_nil_r.
  - rewrite IH. unfold hasAddress at 2.
    destruct (negb (String.eqb (parsemail.EmailAddress u) "")); simpl;
      [now rewrite <- app_assoc | reflexivity].
Qed.

Lemma usersToAddresses_map_filter (users : list parsemail.User) :
  usersToAddresses users = List.map userToAddress (List.filter hasAddress users).
Proof.
  unfold usersToAddresses. destruct (len_is_zero users) eqn:Hz.
  - apply len_is_zero_nil in Hz. now subst.
  - apply fold_users_map_filter.
Qed.

Lemma replay_app (calls1 calls2 : list Event) (s : WriterState) :
  replay (calls1 ++ calls2) s = replay calls2 (replay calls1 s).
Proof. unfold replay. apply fold_left_app. Qed.

Lemma replay_cons (e : Event) (calls : list Event) (s : WriterState) :
  replay (e :: calls) s = replay calls (step s e).
Proof. reflexivity. Qed.

Lemma messagesCreated_created (seqNum : Z) (calls : list Event) :
  messagesCreated (CreateMessage seqNum :: calls) = S (messagesCreated calls).
Proof. reflexivity. Qed.

Lemma messagesCreated_app (calls1 calls2 : list Event) :
  messagesCreated (calls1 ++ calls2) = (messagesCreated calls1 + messagesCreated calls2)%nat.
Proof. unfold messagesCreated. now rewrite List.filter_app, length_app. Qed.

Section WithCollaborators.

Variable env : Collaborators.

(** The calls of one section, spelled out branch by branch. *)
Lemma run_writeSection email traEmail section :
  run (writeSection env email traEmail section)
  = (if Peek section then [] else [MakeRead (models.Id (response.Email_ email)) true])
    ++ (if len_positive (HeaderFields section)
           || PartSpecifier_eqb (Specifier section) PartSpecifierHeader
        then
          let b := headerBlock env email traEmail (BuildBytes env traEmail) section in
          [WriteBodySection section (Z.of_nat (String.length b)); BodyWrite b; BodyClose]
        else if PartSpecifier_eqb (Specifier section) PartSpecifierNone
                || PartSpecifier_eqb (Specifier section) PartSpecifierText
        then
          if len_positive (Part section)
          then
            match BuildPart env traEmail (Part section) with
            | Some partContent =>
                [WriteBodySection section (Z.of_nat (String.length partContent));
                 BodyWrite partContent; BodyClose]
            | None => [WriteBodySection section 0; BodyClose]
            end
          else
            [WriteBodySection section (Z.of_nat (String.length (BuildBytes env traEmail)));
             BodyWrite (BuildBytes env traEmail); BodyClose]
        else []).
Proof.
  unfold writeSection. rewrite run_bind. cbv zeta. f_equal.
  - now destruct (Peek section).
  - repeat match goal with
           | |- context [if ?b then _ else _] => destruct b
           | |- context [BuildPart env ?t ?p] => destruct (BuildPart env t p)
           end; reflexivity.
Qed.

Lemma replay_writeSection email traEmail section :
  replay (run (writeSection env email traEmail section)) InMessage = InMessage.
Proof.
  rewrite run_writeSection, replay_app.
  assert (Hmark : replay (if Peek section then []
                          else [MakeRead (models.Id (response.Email_ email)) true])
                         InMessage = InMessage)
    by now destruct (Peek section).
  rewrite Hmark. cbv zeta.
  repeat match goal with
         | |- context [if ?b then _ else _] => destruct b
         | |- context [BuildPart env ?t ?p] => destruct (BuildPart env t p)
         end;
    cbn [replay fold_left step]; rewrite ?Z.eqb_refl; reflexivity.
Qed.

Lemma created_writeSection email traEmail section :
  messagesCreated (run (writeSection env email traEmail section)) = 0%nat.
Proof.
  rewrite run_writeSection, messagesCreated_app. cbv zeta.
  destruct (Peek section);
    repeat match goal with
           | |- context [if ?b then _ else _] => destruct b
           | |- context [BuildPart env ?t ?p] => destruct (BuildPart env t p)
           end; reflexivity.
Qed.

Lemma replay_sections email traEmail sections :
  replay (run (forRange sections (writeSection env email traEmail))) InMessage = InMessage.
Proof.
  induction sections as [|s sections IH]; [reflexivity|].
  now rewrite run_forRange_cons, replay_app, replay_writeSection.
Qed.

Lemma created_sections email traEmail sections :
  messagesCreated (run (forRange sections (writeSection env email traEmail))) = 0%nat.
Proof.
  induction sections as [|s sections IH]; [reflexivity|].
  now rewrite run_forRange_cons, messagesCreated_app, created_writeSection.
Qed.

(** The calls of one message: it is created, its items are written, its
    sections are written, it is closed. *)
Lemma run_writeMessage email options :
  exists items,
    run (writeMessage env email options)
    = CreateMessage (ToUint32 env (response.SerialNumber email))
      :: items
      ++ run (forRange (OptBodySection options)
                (writeSection env email (NewEmailFromModel env (response.Email_ email))))
      ++ [MessageClose]
    /\ replay items InMessage = InMessage
    /\ messagesCreated items = 0%nat.
Proof.
  unfold writeMessage. cbv zeta. rewrite !run_bind.
  set (traEmail := NewEmailFromModel env (response.Email_ email)).
  exists (run (when (OptUID options) (call (WriteUID (uint32 (response.UeId email)))))
          ++ run (when (OptEnvelope options)
                    (call (WriteEnvelope (buildEnvelope env email traEmail))))
          ++ run (match OptBodyStructure options with
                  | Some bso =>
                      call (WriteBodyStructure (buildBodyStructure traEmail (BSExtended bso)))
                  | None => io_ret tt
                  end)
          ++ run (when (OptRFC822Size options)
                    (call (WriteRFC822Size
                             (Z.of_nat (String.length (BuildBytes env traEmail))))))
          ++ run (when (OptFlags options)
                    (if response.IsRead email =? 1
                     then call (WriteFlags [FlagSeen]) else call (WriteFlags [])))
          ++ run (when (OptInternalDate options)
                    (call (WriteInternalDate (models.CreateTime (response.Email_ email)))))).
  split.
  - cbn [run call snd app]. rewrite <- !app_assoc. reflexivity.
  - destruct (OptUID options), (OptEnvelope options), (OptBodyStructure options),
      (OptRFC822Size options), (OptFlags options), (OptInternalDate options),
      (response.IsRead email =? 1); split; reflexivity.
Qed.

Lemma replay_writeMessage email options :
  replay (run (writeMessage env email options)) Outside = Outside
  /\ messagesCreated (run (writeMessage env email options)) = 1%nat.
Proof.
  destruct (run_writeMessage email options) as (items & -> & Hitems & Hcount).
  split.
  - rewrite replay_cons. cbn [step].
    rewrite !replay_app, Hitems, replay_sections. reflexivity.
  - rewrite messagesCreated_created.
    rewrite !messagesCreated_app, Hcount, created_sections. reflexivity.
Qed.

Lemma replay_write emailList options :
  replay (run (write env emailList options)) Outside = Outside
  /\ messagesCreated (run (write env emailList options)) = length emailList.
Proof.
  unfold write. induction emailList as [|email l [IHr IHc]]; [split; reflexivity|].
  destruct (replay_writeMessage email options) as [Hr Hc].
  rewrite run_forRange_cons, replay_app, messagesCreated_app, Hr, Hc, IHr, IHc.
  split; reflexivity.
Qed.

Lemma replay_ranges (ranges : list NumRange) (lookup : NumRange -> list response.EmailResponseData)
    options :
  replay (run (forRange ranges (fun r => write env (lookup r) options))) Outside = Outside.
Proof.
  induction ranges as [|r ranges IH]; [reflexivity|].
  rewrite run_forRange_cons, replay_app. now rewrite (proj1 (replay_write _ _)).
Qed.

Lemma headerField_unrecognized email traEmail emailContent field :
  isRecognizedField (strings_go.ToLower field) = false ->
  headerField env email traEmail emailContent field = "".
Proof.
  unfold isRecognizedField, recognizedHeaderFields, headerField. cbn [existsb]. cbv zeta.
  intros H.
  repeat (apply orb_false_iff in H; destruct H as [?H H]).
  repeat match goal with
         | Hx : String.eqb ?a ?b = false |- context [String.eqb ?a ?b] => rewrite Hx
         end.
  reflexivity.
Qed.

End WithCollaborators.

End fetch_coverage_facts.

Module fetch_coverage.

Import imap imap_server fetch_spec fetch_facts coverage_spec string_facts.
Import fetch_coverage_facts samples coverage_samples.

(** X13.  An address is split on its last [@]: when the address has one,
    mailbox, [@] and host put together give the address back and the host
    holds no [@]; when it has none, the whole address is the mailbox and
    the host is empty.  The display name is carried over. *)
Theorem address_splits_on_last_at (u : parsemail.User) :
  AName (userToAddress u) = parsemail.Name u
  /\ (if 0 <=? LastIndexByte (parsemail.EmailAddress u) "@"%char
      then Mailbox (userToAddress u) +:+ "@" +:+ Host (userToAddress u)
           = parsemail.EmailAddress u
           /\ LastIndexByte (Host (userToAddress u)) "@"%char = -1
      else Mailbox (userToAddress u) = parsemail.EmailAddress u
           /\ Host (userToAddress u) = "").
Proof.
  unfold userToAddress, splitAddress. cbv zeta.
  destruct (Z.leb_spec 0 (LastIndexByte (parsemail.EmailAddress u) "@"%char)) as [Hge|Hlt];
    cbn [AName Mailbox Host].
  - split; [reflexivity|]. apply (LastIndexByte_split _ _ Hge).
  - split; [reflexivity|]. split; reflexivity.
Qed.

(** X14.  The address lists of the envelope.  To, Cc and Bcc hold the
    users that have an address, in order.  Sender is the parsed sender
    when it has an address and the From list otherwise.  Reply-To is the
    From list only when the parsed message has no reply-to entry; entries
    without an address give an empty Reply-To, not the From list.  From
    holds one address, or none when the stored from-address is empty. *)
Theorem envelope_address_lists (env : Collaborators) (email : response.EmailResponseData)
    (traEmail : parsemail.Email) :
  let e := buildEnvelope env email traEmail in
  ETo e = List.map userToAddress (List.filter hasAddress (parsemail.To traEmail))
  /\ ECc e = List.map userToAddress (List.filter hasAddress (parsemail.Cc traEmail))
  /\ EBcc e = List.map userToAddress (List.filter hasAddress (parsemail.Bcc traEmail))
  /\ ESender e
     = match parsemail.Sender traEmail with
       | Some s => if hasAddress s then [userToAddress s] else EFrom e
       | None => EFrom e
       end
  /\ EReplyTo e
     = (if len_is_zero (parsemail.ReplyTo traEmail) then EFrom e
        else List.map userToAddress (List.filter hasAddress (parsemail.ReplyTo traEmail)))
  /\ (length (EFrom e) <= 1)%nat
  /\ (EFrom e = [] <-> models.FromAddress (response.Email_ email) = "").
Proof.
  intros e. subst e. unfold buildEnvelope. cbv zeta. simpl.
  rewrite !usersToAddresses_map_filter.
  repeat split; try reflexivity.
  - unfold len_positive. now destruct (len_is_zero (parsemail.ReplyTo traEmail)).
  - destruct (negb _); [destruct (splitAddress _)|]; simpl; lia.
  - destruct (String.eqb_spec (models.FromAddress (response.Email_ email)) "") as [Heq|Hne];
      simpl; [auto|]. destruct (splitAddress _); discriminate.
  - intros Heq. now rewrite Heq.
Qed.


(** X16.  The MIME type of an attachment part.  A content type with a
    [/] after its first byte is split there: type, [/] and subtype give
    the content type back and the type holds no [/].  Any other content
    type (no [/], or a leading one) becomes application/octet-stream.
    The file name is recorded both as the [name] parameter and as the
    [filename] parameter of the attachment disposition. *)
Theorem attachment_type_and_name (filename mime : string) (size : Z) (encoding : string) :
  let p := bsAttachment filename mime size encoding in
  (if 0 <? strings_go.IndexByte mime "/"%char
   then Type_ p +:+ "/" +:+ Subtype p = mime
        /\ strings_go.IndexByte (Type_ p) "/"%char = -1
   else Type_ p = "application" /\ Subtype p = "octet-stream")
  /\ Params p !! "name" = Some filename
  /\ exists ext disposition,
       Extended p = Some ext /\ Disposition ext = Some disposition
       /\ DValue disposition = "attachment"
       /\ DParams disposition !! "filename" = Some filename.
Proof.
  intros p. subst p. unfold bsAttachment. cbv zeta.
  destruct (Z.ltb_spec 0 (strings_go.IndexByte mime "/"%char)) as [Hpos|Hle]; simpl.
  - split; [apply IndexByte_split; lia|].
    split; [apply lookup_singleton_eq|].
    do 2 eexists. repeat split; try apply lookup_singleton_eq.
  - split; [split; reflexivity|].
    split; [apply lookup_singleton_eq|].
    do 2 eexists. repeat split; try apply lookup_singleton_eq.
Qed.

(** X17.  The calls of a FETCH follow the writer's discipline.  Read from
    start to end, every message is created, written and closed before the
    next one; every body section announces exactly the number of bytes
    that is then written to it, or zero and nothing, and is closed at
    once; and [MakeRead] is only called for a message being written.
    [write] creates one message per listed message. *)
Theorem fetch_follows_writer_discipline (env : Collaborators)
    (emailList : list response.EmailResponseData) (numSet : NumSet)
    (options : FetchOptions) :
  replay (run (write env emailList options)) Outside = Outside
  /\ messagesCreated (run (write env emailList options)) = length emailList
  /\ replay (run (Fetch env numSet options)) Outside = Outside.
Proof.
  destruct (replay_write env emailList options) as [Hr Hc].
  split; [exact Hr|]. split; [exact Hc|].
  unfold Fetch. rewrite run_bind, replay_app.
  destruct numSet as [seqSet|uidSet].
  - rewrite (replay_ranges env seqSet
               (fun seq => GetEmailListByGroup env (mkListReq (Start seq) (Stop seq)) false)).
    reflexivity.
  - rewrite (replay_ranges env uidSet
               (fun uid => GetEmailListByGroup env
                             (mkListReq (uint32 (Start uid)) (uint32 (Stop uid))) true)).
    reflexivity.
Qed.

(** X18.  A section with the MIME specifier and no header-field list is
    answered with nothing at all, yet the message is still marked read
    unless the section is a peek. *)
Theorem mime_section_marks_read_and_writes_nothing (env : Collaborators)
    (email : response.EmailResponseData) (traEmail : parsemail.Email)
    (section : FetchItemBodySection) :
  Specifier section = PartSpecifierMIME ->
  HeaderFields section = [] ->
  run (writeSection env email traEmail section)
  = if Peek section then [] else [MakeRead (models.Id (response.Email_ email)) true].
Proof.
  intros Hspec Hfields. rewrite run_writeSection, Hspec, Hfields. simpl.
  apply app_nil_r.
Qed.

Lemma mime_section_marks_read_and_writes_nothing_witness :
  Specifier sectionMime = PartSpecifierMIME
  /\ HeaderFields sectionMime = []
  /\ run (writeSection sampleEnv messageHi parsedHi sectionMime)
     = [MakeRead 100 true].
Proof.
  split; [reflexivity|]. split; [reflexivity|].
  exact (mime_section_marks_read_and_writes_nothing sampleEnv messageHi parsedHi
           sectionMime eq_refl eq_refl).
Defined.

(** X19.  A part path that resolves to no part is answered with an
    explicitly empty section: size zero, no bytes, closed; after the
    message has been marked read unless the section is a peek. *)
Theorem missing_part_gives_empty_section (env : Collaborators)
    (email : response.EmailResponseData) (traEmail : parsemail.Email)
    (section : FetchItemBodySection) :
  HeaderFields section = [] ->
  Specifier section = PartSpecifierNone \/ Specifier section = PartSpecifierText ->
  (1 <= length (Part section))%nat ->
  BuildPart env traEmail (Part section) = None ->
  run (writeSection env email traEmail section)
  = (if Peek section then [] else [MakeRead (models.Id (response.Email_ email)) true])
    ++ [WriteBodySection section 0; BodyClose].
Proof.
  intros Hfields Hspec Hpart Hnone. rewrite run_writeSection, Hfields, Hnone.
  assert (Hpos : len_positive (Part section) = true).
  { destruct (Part section); simpl in *; [lia | reflexivity]. }
  rewrite Hpos. destruct Hspec as [-> | ->]; reflexivity.
Qed.

Lemma missing_part_gives_empty_section_witness :
  HeaderFields sectionPart7 = []
  /\ (Specifier sectionPart7 = PartSpecifierNone
      \/ Specifier sectionPart7 = PartSpecifierText)
  /\ (1 <= length (Part sectionPart7))%nat
  /\ BuildPart sampleEnv parsedHi (Part sectionPart7) = None
  /\ run (writeSection sampleEnv messageHi parsedHi sectionPart7)
     = [MakeRead 100 true; WriteBodySection sectionPart7 0; BodyClose].
Proof.
  assert (Hlen : (1 <= length (Part sectionPart7))%nat) by (simpl; lia).
  split; [reflexivity|]. split; [left; reflexivity|]. split; [exact Hlen|].
  split; [reflexivity|].
  exact (missing_part_gives_empty_section sampleEnv messageHi parsedHi sectionPart7
           eq_refl (or_introl eq_refl) Hlen eq_refl).
Defined.

(** X20.  A header-fields request whose field names are ASCII and are
    all names the handler has no case for (references, in-reply-to, X-
    headers, anything unknown) is answered with the blank line alone. *)
Theorem unknown_header_fields_give_blank_line (env : Collaborators)
    (email : response.EmailResponseData) (traEmail : parsemail.Email)
    (emailContent : string) (section : FetchItemBodySection) :
  (1 <= length (HeaderFields section))%nat ->
  (forall field, In field (HeaderFields section) ->
                 isASCII field = true
                 /\ isRecognizedField (strings_go.ToLower field) = false) ->
  headerBlock env email traEmail emailContent section = CRLF.
Proof.
  intros Hlen Hunknown. unfold headerBlock.
  assert (Hz : len_is_zero (HeaderFields section) = false).
  { destruct (HeaderFields section); simpl in *; [lia | reflexivity]. }
  rewrite Hz. cbv zeta.
  assert (Hfold : forall fields b,
            (forall field, In field fields ->
                           isASCII field = true
                           /\ isRecognizedField (strings_go.ToLower field) = false) ->
            fold_left
              (fun b field => b +:+ headerField env email traEmail emailContent field)
              fields b = b).
  { induction fields as [|f fields IH]; intros b Hf; simpl; [reflexivity|].
    rewrite headerField_unrecognized by (apply Hf; now left).
    assert (Hb : b +:+ "" = b).
    { clear. induction b as [|x b IHb]; [reflexivity|].
      change (String x (b +:+ "") = String x b). now rewrite IHb. }
    rewrite Hb. apply IH. intros g Hg. apply Hf. now right. }
  rewrite Hfold by exact Hunknown. reflexivity.
Qed.

Lemma unknown_header_fields_give_blank_line_witness :
  (1 <= length (HeaderFields (headerSectionOf ["References"; "X-Mailer"])))%nat
  /\ (forall field, In field (HeaderFields (headerSectionOf ["References"; "X-Mailer"])) ->
                    isASCII field = true
                    /\ isRecognizedField (strings_go.ToLower field) = false)
  /\ headerBlock sampleEnv messageHi parsedHi (BuildBytes sampleEnv parsedHi)
                 (headerSectionOf ["References"; "X-Mailer"])
     = CRLF.
Proof.
  assert (Hlen : (1 <= length (HeaderFields (headerSectionOf ["References"; "X-Mailer"])))%nat)
    by (simpl; lia).
  assert (Hun : forall field,
             In field (HeaderFields (headerSectionOf ["References"; "X-Mailer"])) ->
             isASCII field = true
             /\ isRecognizedField (strings_go.ToLower field) = false).
  { simpl. intros field [<-|[<-|[]]]; split; reflexivity. }
  split; [exact Hlen|]. split; [exact Hun|].
  exact (unknown_header_fields_give_blank_line sampleEnv messageHi parsedHi
           (BuildBytes sampleEnv parsedHi) (headerSectionOf ["References"; "X-Mailer"])
           Hlen Hun).
Defined.

End fetch_coverage.

Module algebra_coverage.

Import imap list_search search_spec search_facts or_facts coverage_spec.
Import search_coverage_facts string_facts imap_server.

Lemma prefix_split (sep s : string) :
  String.prefix sep s = true ->
  sep +:+ strings_go.slice_from s (Z.of_nat (String.length sep)) = s.
Proof.
  revert s. induction sep as [|a sep IH]; intros s.
  - intros _. cbn [String.length Z.of_nat]. now rewrite slice_from_zero.
  - destruct s as [|b s]; cbn [String.prefix]; [discriminate|].
    destruct (ascii_dec a b) as [->|Hne]; [|discriminate].
    intros Hp. cbn [String.length]. rewrite Nat2Z.inj_succ, <- Z.add_1_r.
    rewrite slice_from_cons by lia.
    change (String b (sep +:+ strings_go.slice_from s (Z.of_nat (String.length sep)))
            = String b s).
    now rewrite IH.
Qed.

(** [cut] finds an occurrence: the string is what precedes it, the
    separator, and what follows it. *)
Lemma cut_split (sep s before after : string) :
  strings_go.cut sep s = Some (before, after) -> s = before +:+ sep +:+ after.
Proof.
  revert before. induction s as [|c s IH]; intros before; cbn [strings_go.cut].
  - destruct (String.prefix sep "") eqn:Hp; [|discriminate].
    intros H. injection H as <- <-. symmetry. now apply prefix_split.
  - destruct (String.prefix sep (String c s)) eqn:Hp.
    + intros H. injection H as <- <-. symmetry. now apply prefix_split.
    + destruct (strings_go.cut sep s) as [[b a]|]; [|discriminate].
      intros H. injection H as <- <-.
      change (String c s = String c (b +:+ sep +:+ a)). now rewrite (IH b eq_refl).
Qed.

Section WithStore.

Variable UIDSet_Contains : UIDSet -> Z -> bool.
Variable SeqSet_Contains : SeqSet -> Z -> bool.
Variable mailbox : list UserEmailUIDData.
Variable Find : list Z -> FindResult.

Abbreviation searchAt := (SearchEmailsAt UIDSet_Contains SeqSet_Contains mailbox Find).
Abbreviation search := (SearchEmails UIDSet_Contains SeqSet_Contains mailbox Find).

(** X21.  Double negation: [NOT (NOT c)] selects the messages of the
    mailbox whose UID is among the matches of [c]. *)
Theorem double_not_selects_matches (c : SearchCriteria) :
  fst (search (Some (notOnly (notOnly c))))
  = List.filter (fun item => hasUID (ID item) (fst (search (Some c)))) mailbox.
Proof.
  change (fst (searchAt (notOnly (notOnly c)))
          = List.filter (fun item => hasUID (ID item) (fst (searchAt c))) mailbox).
  rewrite !search_claims.notOnly_is_filter.
  apply List.filter_ext_in. intros item Hin.
  set (matches := fst (searchAt c)).
  destruct (hasUID (ID item) matches) eqn:Hm; simpl.
  - apply negb_true_iff, not_true_is_false. intros H.
    apply hasUID_In in H as (y & Hy & Hid).
    apply List.filter_In in Hy as [_ Hy]. rewrite Hid, Hm in Hy. discriminate.
  - apply negb_false_iff, hasUID_In. exists item. split; [|reflexivity].
    apply List.filter_In. split; [exact Hin|]. now rewrite Hm.
Qed.

(** X22.  A single OR pair is a union, and its sides commute: [OR a b]
    selects the messages of the mailbox whose UID is matched by [a] or by
    [b], and [OR b a] selects the same list. *)
Theorem or_pair_is_union_and_commutes (a b : SearchCriteria) :
  fst (search (Some (orOnly [(a, b)])))
  = List.filter
      (fun item => hasUID (ID item) (fst (search (Some a)))
                   || hasUID (ID item) (fst (search (Some b))))
      mailbox
  /\ fst (search (Some (orOnly [(a, b)]))) = fst (search (Some (orOnly [(b, a)]))).
Proof.
  assert (H : forall x y,
            fst (searchAt (orOnly [(x, y)]))
            = List.filter
                (fun item => hasUID (ID item) (fst (searchAt x))
                             || hasUID (ID item) (fst (searchAt y)))
                mailbox).
  { intros x y. rewrite SearchEmailsAt_unfold. cbv zeta.
    destruct (len_is_zero mailbox) eqn:Hmb.
    { apply len_is_zero_nil in Hmb. now rewrite Hmb. }
    simpl. rewrite applyOrCriteria_union by reflexivity.
    unfold orUnionOfUnions. apply List.filter_ext. intros item.
    unfold matchesPair. simpl. apply orb_false_r. }
  split; [apply H|].
  change (fst (searchAt (orOnly [(a, b)])) = fst (searchAt (orOnly [(b, a)]))).
  rewrite !H. apply List.filter_ext. intros item. apply orb_comm.
Qed.

End WithStore.


Lemma cut_none (sep s : string) :
  strings_go.Contains s sep = false -> strings_go.cut sep s = None.
Proof.
  induction s as [|c s IH]; cbn [strings_go.Contains strings_go.cut].
  - now destruct (String.prefix sep "").
  - destruct (String.prefix sep (String c s)); [discriminate|].
    intros H. now rewrite (IH H).
Qed.

Lemma slice_from_two (c d : ascii) (rest : string) :
  strings_go.slice_from (String c (String d rest)) 2 = rest.
Proof.
  change 2 with (1 + 1). rewrite slice_from_cons by lia. apply slice_from_one.
Qed.

(** A line break is not found before the end of a part that holds none. *)
Lemma prefix_CRLF_inside (c : ascii) (l rest : string) :
  String.prefix CRLF (String c l) = false ->
  String.prefix CRLF (String c (l +:+ CRLF +:+ rest)) = false.
Proof.
  unfold CRLF. cbn [String.prefix].
  destruct (ascii_dec (ascii_of_nat 13) c) as [_|_]; [|reflexivity].
  destruct l as [|d l].
  - intros _. reflexivity.
  - change (String d l +:+ String (ascii_of_nat 13) (String (ascii_of_nat 10) "") +:+ rest)
      with (String d (l +:+ String (ascii_of_nat 13) (String (ascii_of_nat 10) "") +:+ rest)).
    cbn [String.prefix].
    destruct (ascii_dec (ascii_of_nat 10) d) as [_|_]; [|reflexivity].
    now destruct l.
Qed.

(** [cut] finds the first line break: a part that holds none, followed by
    CRLF, is cut exactly there. *)
Lemma cut_first_CRLF (line rest : string) :
  strings_go.Contains line CRLF = false ->
  strings_go.cut CRLF (line +:+ CRLF +:+ rest) = Some (line, rest).
Proof.
  induction line as [|c l IH].
  - intros _. change ("" +:+ CRLF +:+ rest)
      with (String (ascii_of_nat 13) (String (ascii_of_nat 10) rest)).
    cbn [strings_go.cut].
    assert (Hp : String.prefix CRLF (String (ascii_of_nat 13) (String (ascii_of_nat 10) rest))
                 = true).
    { unfold CRLF. cbn [String.prefix].
      destruct (ascii_dec (ascii_of_nat 13) (ascii_of_nat 13)); [|congruence].
      destruct (ascii_dec (ascii_of_nat 10) (ascii_of_nat 10)); [|congruence].
      now destruct rest. }
    rewrite Hp. change (Z.of_nat (String.length CRLF)) with 2.
    now rewrite slice_from_two.
  - cbn [strings_go.Contains].
    destruct (String.prefix CRLF (String c l)) eqn:Hp; [discriminate|].
    intros Hfree.
    change (String c l +:+ CRLF +:+ rest) with (String c (l +:+ CRLF +:+ rest)).
    cbn [strings_go.cut]. rewrite (prefix_CRLF_inside c l rest Hp).
    now rewrite (IH Hfree).
Qed.

(** X24.  The Content-Type field is made of the first two lines of the
    serialized message put together without the line break between them.
    A message without any CRLF writes nothing; a message made of two
    lines, or of two lines followed by CRLF and more, writes the first
    line, the second line and one CRLF (a line being a part that holds no
    CRLF). *)
Theorem content_type_joins_first_two_lines (env : Collaborators)
    (email : response.EmailResponseData) (traEmail : parsemail.Email)
    (emailContent : string) :
  (strings_go.Contains emailContent CRLF = false ->
   headerField env email traEmail emailContent "content-type" = "")
  /\ (forall line1 line2,
        strings_go.Contains line1 CRLF = false ->
        strings_go.Contains line2 CRLF = false ->
        emailContent = line1 +:+ CRLF +:+ line2 ->
        headerField env email traEmail emailContent "content-type"
        = line1 +:+ line2 +:+ CRLF)
  /\ (forall line1 line2 tail,
        strings_go.Contains line1 CRLF = false ->
        strings_go.Contains line2 CRLF = false ->
        emailContent = line1 +:+ CRLF +:+ line2 +:+ CRLF +:+ tail ->
        headerField env email traEmail emailContent "content-type"
        = line1 +:+ line2 +:+ CRLF).
Proof.
  unfold headerField. cbv zeta.
  change (strings_go.ToLower "content-type") with "content-type".
  cbn [String.eqb Ascii.eqb Bool.eqb].
  cbn [strings_go.SplitN].
  split; [|split].
  - intros Hfree. now rewrite (cut_none _ _ Hfree).
  - intros line1 line2 H1 H2 ->.
    rewrite (cut_first_CRLF line1 line2 H1), (cut_none _ _ H2). reflexivity.
  - intros line1 line2 tail H1 H2 ->.
    rewrite (cut_first_CRLF line1 _ H1), (cut_first_CRLF line2 tail H2). reflexivity.
Qed.

Lemma content_type_joins_first_two_lines_witness :
  strings_go.Contains "Content-Type: text/plain;" CRLF = false
  /\ strings_go.Contains " charset=utf-8" CRLF = false
  /\ BuildBytes samples.sampleEnv samples.parsedHi
     = "Content-Type: text/plain;" +:+ CRLF +:+ " charset=utf-8" +:+ CRLF
       +:+ (CRLF +:+ "hello")
  /\ headerField samples.sampleEnv samples.messageHi samples.parsedHi
       (BuildBytes samples.sampleEnv samples.parsedHi) "content-type"
     = "Content-Type: text/plain;" +:+ " charset=utf-8" +:+ CRLF.
Proof.
  split; [reflexivity|]. split; [reflexivity|]. split; [reflexivity|].
  exact (proj2 (proj2 (content_type_joins_first_two_lines samples.sampleEnv
                         samples.messageHi samples.parsedHi
                         (BuildBytes samples.sampleEnv samples.parsedHi)))
           "Content-Type: text/plain;" " charset=utf-8" (CRLF +:+ "hello")
           eq_refl eq_refl eq_refl).
Defined.

End algebra_coverage.

(* ===================================================================== *)
(** ** Where and how often a FETCH marks a message read                   *)
(* ===================================================================== *)

Module fetch_marking.

Import imap imap_server fetch_spec fetch_facts fetch_coverage_facts samples.

Lemma run_forRange_flat_map {A} (l : list A) (body : A -> IO unit) :
  run (forRange l body) = flat_map (fun x => run (body x)) l.
Proof.
  induction l as [|x l IH]; [reflexivity|].
  rewrite run_forRange_cons, IH. reflexivity.
Qed.

Lemma flat_map_nested {A B C} (f : B -> list C) (g : A -> list B) (l : list A) :
  flat_map f (flat_map g l) = flat_map (fun x => flat_map f (g x)) l.
Proof.
  induction l as [|x l IH]; [reflexivity|].
  simpl. now rewrite flat_map_app, IH.
Qed.

Lemma markReadCalls_flat_map {A} (f : A -> list Event) (l : list A) :
  markReadCalls (flat_map f l) = flat_map (fun x => markReadCalls (f x)) l.
Proof.
  induction l as [|x l IH]; [reflexivity|].
  simpl. now rewrite markReadCalls_app, IH.
Qed.

Lemma run_write (env : Collaborators) (emailList : list response.EmailResponseData)
    (options : FetchOptions) :
  run (write env emailList options)
  = flat_map (fun m => run (writeMessage env m options)) emailList.
Proof. unfold write. apply run_forRange_flat_map. Qed.

Lemma run_Fetch (env : Collaborators) (numSet : NumSet) (options : FetchOptions) :
  run (Fetch env numSet options)
  = flat_map (fun m => run (writeMessage env m options)) (listedMessages env numSet).
Proof.
  unfold Fetch, listedMessages. rewrite run_bind. cbn [run io_ret snd].
  rewrite app_nil_r.
  destruct numSet as [seqSet|uidSet]; rewrite run_forRange_flat_map, flat_map_nested;
    apply flat_map_ext; intros r; apply run_write.
Qed.

(** C2 (amended).  Every time a message is written, the mark-as-read
    side effect is called once per requested body section not marked
    peek, as the first call of that section, before anything is written
    for it.  A section's calls are [MakeRead] (unless it is a peek)
    followed by calls on its body writer only; a message's calls are its
    creation, its other items, the calls of its sections in order, and its
    closing; [write] does this for each message of its list and a FETCH
    for each message listed by each range of its set, sequence numbers or
    UIDs.  So a message is marked as many times as the request has
    non-peek sections each time it is written: exactly once only with one
    such section, never with none, and again for every further range that
    lists it. *)
Theorem fetch_marks_read_first_in_each_section
    (env : Collaborators) (email : response.EmailResponseData)
    (traEmail : parsemail.Email) (section : FetchItemBodySection)
    (emailList : list response.EmailResponseData) (numSet : NumSet)
    (options : FetchOptions) :
  (exists out,
     run (writeSection env email traEmail section)
     = (if Peek section then [] else [MakeRead (models.Id (response.Email_ email)) true])
       ++ out
     /\ forallb isBodyCall out = true)
  /\ (exists items,
        run (writeMessage env email options)
        = CreateMessage (ToUint32 env (response.SerialNumber email))
          :: items
          ++ flat_map
               (fun s => run (writeSection env email
                                (NewEmailFromModel env (response.Email_ email)) s))
               (OptBodySection options)
          ++ [MessageClose]
        /\ forallb isItemCall items = true)
  /\ run (write env emailList options)
     = flat_map (fun m => run (writeMessage env m options)) emailList
  /\ run (Fetch env numSet options)
     = flat_map (fun m => run (writeMessage env m options)) (listedMessages env numSet)
  /\ markReadCalls (run (Fetch env numSet options))
     = flat_map
         (fun m => repeat (models.Id (response.Email_ m)) (nonPeekCount options))
         (listedMessages env numSet).
Proof.
  split; [|split; [|split; [|split]]].
  - rewrite run_writeSection. eexists. split; [reflexivity|]. cbv zeta.
    repeat match goal with
           | |- context [if ?b then _ else _] => destruct b
           | |- context [BuildPart env ?t ?p] => destruct (BuildPart env t p)
           end; reflexivity.
  - unfold writeMessage. cbv zeta. rewrite !run_bind, run_forRange_flat_map.
    set (tra := NewEmailFromModel env (response.Email_ email)).
    exists (run (when (OptUID options) (call (WriteUID (uint32 (response.UeId email)))))
            ++ run (when (OptEnvelope options)
                      (call (WriteEnvelope (buildEnvelope env email tra))))
            ++ run (match OptBodyStructure options with
                    | Some bso =>
                        call (WriteBodyStructure (buildBodyStructure tra (BSExtended bso)))
                    | None => io_ret tt
                    end)
            ++ run (when (OptRFC822Size options)
                      (call (WriteRFC822Size
                               (Z.of_nat (String.length (BuildBytes env tra))))))
            ++ run (when (OptFlags options)
                      (if response.IsRead email =? 1
                       then call (WriteFlags [FlagSeen]) else call (WriteFlags [])))
            ++ run (when (OptInternalDate options)
                      (call (WriteInternalDate
                               (models.CreateTime (response.Email_ email)))))).
    split.
    + cbn [run call snd app]. rewrite <- !app_assoc. reflexivity.
    + destruct (OptUID options), (OptEnvelope options), (OptBodyStructure options),
        (OptRFC822Size options), (OptFlags options), (OptInternalDate options),
        (response.IsRead email =? 1); reflexivity.
  - apply run_write.
  - apply run_Fetch.
  - rewrite run_Fetch, markReadCalls_flat_map. apply flat_map_ext. intros m.
    apply markReadCalls_writeMessage.
Qed.

End fetch_marking.
